(** * toolcall: the MCP dispatcher, the wire-schema translator and the client

    A shallow embedding of the modules [schema.ts], [server.ts], [client.ts]
    and [types.ts] of the toolcall repository, with the properties of its
    specification stated over that embedding.

    Conventions of the embedding.
    - JavaScript values that travel through the protocol are JSON-like trees
      ([JsValue]): primitives, arrays, and objects given by their own
      properties, with [Object.prototype] as prototype.  Numbers are integers:
      the code never does arithmetic on a protocol value, it only copies,
      compares and prints them; the text of a number is what the built-in
      [Number::toString] gives ([NumberToString]).
    - A string is the UTF-8 text of the JavaScript string.
    - A call that may throw returns a [Completion].  An [await] is modelled
      by the settled outcome of the awaited promise: a tool whose promise
      never settles never lets its request be answered, and has no outcome
      here.
    - Everything mutable that library code or a tool may touch lives in an
      opaque store [W]; an external call is a store transformer ([SE W]).
      Where the identity of objects matters (the translator must not change
      the schema it is given), objects are held by reference in a heap
      ([ByReference]).
    - The two packages the code calls, zod and zod-to-json-schema, and the
      built-ins [JSON.stringify], [JSON.parse] and [Number::toString] are
      parameters of the definitions that use them. *)

From stdpp Require Import base strings list gmap pretty.
From Stdlib Require Import ZArith.

Local Open Scope string_scope.
Set Warnings "-register-all".

(** ** JavaScript values *)

Inductive JsValue : Type :=
| JUndefined
| JNull
| JBool (b : bool)
| JNum (n : Z)
| JStr (s : string)
| JArr (items : list JsValue)
| JObj (props : list (string * JsValue)).

(** [typeof v] *)
Definition typeof (v : JsValue) : string :=
  match v with
  | JUndefined => "undefined"
  | JNull => "object"
  | JBool _ => "boolean"
  | JNum _ => "number"
  | JStr _ => "string"
  | JArr _ | JObj _ => "object"
  end.

(** Truthiness, as tested by [if (v)] and [!v]. *)
Definition truthy (v : JsValue) : bool :=
  match v with
  | JUndefined | JNull => false
  | JBool b => b
  | JNum n => negb (n =? 0)%Z
  | JStr s => negb (bool_decide (s = ""))
  | JArr _ | JObj _ => true
  end.

(** [a ?? b] *)
Definition nullish_coalesce (a b : JsValue) : JsValue :=
  match a with
  | JUndefined | JNull => b
  | _ => a
  end.

(** Own property of an object literal, first binding of the key. *)
Fixpoint own_property {A : Type} (k : string) (props : list (string * A)) : option A :=
  match props with
  | [] => None
  | (k', v) :: rest => if bool_decide (k' = k) then Some v else own_property k rest
  end.

(** ** Exceptions and completions *)

(** What a [throw] carries: an instance of [Error] (with its message), or any
    other value. *)
Inductive Thrown : Type :=
| Error (message : string)
| NonError (v : JsValue).

Inductive Completion (A : Type) : Type :=
| Normal (a : A)
| Throw (e : Thrown).
Arguments Normal {A} a.
Arguments Throw {A} e.

Fixpoint join_with (sep : string) (parts : list string) : string :=
  match parts with
  | [] => ""
  | [p] => p
  | p :: rest => p +:+ sep +:+ join_with sep rest
  end.

(** [Number::toString]: the text JavaScript prints for a number.  It is a
    built-in, total on numbers. *)
Class NumberToString : Type := Number_toString : Z -> string.

(** The TypeError of a conversion to a primitive that finds no usable
    [toString] or [valueOf]. *)
Definition cannot_convert : Thrown :=
  Error "Cannot convert object to primitive value".

(** [String(v)], which is also what a template literal and a property key
    apply to [v].  An object is converted through its [toString] member: the
    inherited one gives [[object Object]]; an own member of that name is not
    a function (the values of the tree are data), and then the inherited
    [valueOf] returns the object itself, so the conversion throws a
    TypeError.  An array prints its elements in order, separated by commas,
    with [null] and [undefined] elements printed as nothing; an element that
    cannot be converted makes the whole conversion throw. *)
Fixpoint ToString `{NumberToString} (v : JsValue) : Completion string :=
  match v with
  | JUndefined => Normal "undefined"
  | JNull => Normal "null"
  | JBool true => Normal "true"
  | JBool false => Normal "false"
  | JNum n => Normal (Number_toString n)
  | JStr s => Normal s
  | JArr items =>
      match
        (fix elements (l : list JsValue) : Completion (list string) :=
           match l with
           | [] => Normal []
           | x :: l' =>
               match match x with
                     | JUndefined | JNull => Normal ""
                     | _ => ToString x
                     end with
               | Throw e => Throw e
               | Normal text =>
                   match elements l' with
                   | Throw e => Throw e
                   | Normal texts => Normal (text :: texts)
                   end
               end
           end) items
      with
      | Throw e => Throw e
      | Normal texts => Normal (join_with "," texts)
      end
  | JObj props =>
      match own_property "toString" props with
      | Some _ => Throw cannot_convert
      | None => Normal "[object Object]"
      end
  end.

(** [v.k] for the keys the source reads by name ([type], [properties],
    [required], [name], [arguments], [id], [error], [message], [result],
    [content], [text]).  None of them is a member of a built-in prototype, so
    the read gives the own property or [undefined]; reading a property of
    [undefined] or [null] throws a TypeError. *)
Definition Get (v : JsValue) (k : string) : Completion JsValue :=
  match v with
  | JUndefined =>
      Throw (Error ("Cannot read properties of undefined (reading '" +:+ k +:+ "')"))
  | JNull =>
      Throw (Error ("Cannot read properties of null (reading '" +:+ k +:+ "')"))
  | JObj props => Normal (default JUndefined (own_property k props))
  | _ => Normal JUndefined
  end.

(** ** Store-passing computations that may throw *)

Definition SE (S A : Type) : Type := S -> Completion A * S.

Definition se_ret {S A} (a : A) : SE S A := fun s => (Normal a, s).

Definition se_throw {S A} (e : Thrown) : SE S A := fun s => (Throw e, s).

Definition se_bind {S A B} (f : A -> SE S B) (m : SE S A) : SE S B :=
  fun s =>
    match m s with
    | (Normal a, s') => f a s'
    | (Throw e, s') => (Throw e, s')
    end.

(** [try { body } catch (error) { handler }] *)
Definition try_catch {S A} (body : SE S A) (handler : Thrown -> SE S A) : SE S A :=
  fun s =>
    match body s with
    | (Normal a, s') => (Normal a, s')
    | (Throw e, s') => handler e s'
    end.

(** A store-free step (a property read, a built-in on values). *)
Definition se_pure {S A} (c : Completion A) : SE S A := fun s => (c, s).

#[global] Instance se_mret {S} : MRet (SE S) := fun A a => se_ret a.
#[global] Instance se_mbind {S} : MBind (SE S) := fun A B f m => se_bind f m.

(** [Array.prototype.map] with a callback that may throw. *)
Fixpoint se_map {S A B} (f : A -> SE S B) (l : list A) : SE S (list B) :=
  match l with
  | [] => mret []
  | x :: rest => y ← f x; ys ← se_map f rest; mret (y :: ys)
  end.

(** ** Zod schemas, tools and the registry ([types.ts]) *)

(** The shape of a parameter schema, one constructor per constraint kind the
    repository's tools and tests build with the Zod API:
    [z.string().min().max()], [z.number().min().max()], [z.boolean()],
    [z.enum([...])], [z.array(...)], [z.object({...})], [.optional()],
    [.default(v)] and [.describe(text)]. *)
Inductive ZodDef : Type :=
| ZString (minLength maxLength : option Z)
| ZNumber (minimum maximum : option Z)
| ZBoolean
| ZEnum (values : list string)
| ZArray (element : ZodDef)
| ZObject (shape : list (string * ZodDef))
| ZOptional (inner : ZodDef)
| ZDefault (inner : ZodDef) (value : JsValue)
| ZDescribe (inner : ZodDef) (description : string).

(** [parseResult.error]: the only member the dispatcher uses is [format()],
    kept here as the report that call returns. *)
Record ZodError : Type := { format : JsValue }.

(** What [safeParse] returns: [{success: true, data}] or
    [{success: false, error}]. *)
Inductive SafeParseReturn : Type :=
| SafeParseSuccess (data : JsValue)
| SafeParseError (error : ZodError).

Section Types.
Context {W : Type}.

(** A [z.ZodType]: its declared shape and its validator method. *)
Record ZodType : Type := {
  def : ZodDef;
  safeParse : JsValue -> SE W SafeParseReturn
}.

(** [ToolDefinition]; [execute] is given by the outcome of awaiting it. *)
Record ToolDefinition : Type := {
  description : string;
  parameters : ZodType;
  execute : JsValue -> SE W JsValue
}.

(** [ToolRegistry = Record<string, ToolDefinition>]: the own properties of
    the object literal handed to [serve], in iteration order. *)
Definition ToolRegistry : Type := list (string * ToolDefinition).
End Types.
Arguments ZodType : clear implicits.
Arguments ToolDefinition : clear implicits.
Arguments ToolRegistry : clear implicits.

(** ** The wire-schema translator ([schema.ts]) *)

Section Translator.
Context {W : Type}.

(** [zodToJsonSchema(schema, { target: 'openApi3' })] of the
    zod-to-json-schema package. *)
Variable zodToJsonSchema : ZodType W -> SE W JsValue.

(** [v === 'object'] *)
Definition is_object_tag (v : JsValue) : bool :=
  match v with
  | JStr s => bool_decide (s = "object")
  | _ => false
  end.

(** The guard [typeof jsonSchema !== 'object' || jsonSchema.type !== 'object'];
    [||] reads [jsonSchema.type] only when the first test is false. *)
Definition not_object_schema (jsonSchema : JsValue) : Completion bool :=
  if negb (bool_decide (typeof jsonSchema = "object")) then Normal true
  else
    match Get jsonSchema "type" with
    | Normal t => Normal (negb (is_object_tag t))
    | Throw e => Throw e
    end.

Definition zodToMcpSchema (schema : ZodType W) : SE W JsValue :=
  jsonSchema ← zodToJsonSchema schema;
  wrap ← se_pure (not_object_schema jsonSchema);
  if (wrap : bool) then
    mret (JObj [("type", JStr "object");
                ("properties", JObj [("value", jsonSchema)]);
                ("required", JArr [JStr "value"])])
  else
    properties ← se_pure (Get jsonSchema "properties");
    required ← se_pure (Get jsonSchema "required");
    mret (JObj [("type", JStr "object");
                ("properties", nullish_coalesce properties (JObj []));
                ("required", required)]).

Definition toolToMcpDefinition (name : string) (tool : ToolDefinition W)
  : SE W JsValue :=
  inputSchema ← zodToMcpSchema (parameters tool);
  mret (JObj [("name", JStr name);
              ("description", JStr (description tool));
              ("inputSchema", inputSchema)]).
End Translator.


(** ** The dispatcher ([server.ts]) *)

(** [JsonRpcRequest].  The id is copied, never inspected, so it is any value
    (the interface says number or string). *)
Record JsonRpcRequest : Type := {
  req_jsonrpc : string;
  req_id : JsValue;
  req_method : string;
  req_params : JsValue
}.

(** The [error] member of a response; [data] is optional. *)
Record JsonRpcError : Type := {
  code : Z;
  message : string;
  data : option JsValue
}.

(** [JsonRpcResponse]: [result] and [error] are both optional members of the
    interface; [None] is an absent key. *)
Record JsonRpcResponse : Type := {
  res_jsonrpc : string;
  res_id : JsValue;
  res_result : option JsValue;
  res_error : option JsonRpcError
}.

Record McpServerInfo : Type := { name : string; version : string }.

(** [ServeOptions & { tools }]; an absent option is [None]. *)
Record ServeOptions : Type := {
  opt_name : option string;
  opt_version : option string;
  opt_transport : option string;
  opt_port : option Z
}.

Definition PROTOCOL_VERSION : string := "2024-11-05".

(** The names [Object.prototype] defines: every object literal inherits
    them, so [tools[key]] finds a (truthy) member for each of them. *)
Definition Object_prototype_keys : list string :=
  ["constructor"; "__defineGetter__"; "__defineSetter__"; "hasOwnProperty";
   "__lookupGetter__"; "__lookupSetter__"; "isPrototypeOf";
   "propertyIsEnumerable"; "toString"; "valueOf"; "__proto__";
   "toLocaleString"].

(** The error message of [undefined.safeParse]. *)
Definition safeParse_of_undefined : Thrown :=
  Error "Cannot read properties of undefined (reading 'safeParse')".

(** [const { name: toolName, arguments: args } = params]: destructuring
    [undefined] or [null] throws a TypeError, any other value yields its two
    properties. *)
Definition destructure_params (params : JsValue) : Completion (JsValue * JsValue) :=
  match params with
  | JUndefined =>
      Throw (Error "Cannot destructure property 'name' of 'params' as it is undefined.")
  | JNull =>
      Throw (Error "Cannot destructure property 'name' of 'params' as it is null.")
  | JObj props =>
      Normal (default JUndefined (own_property "name" props),
              default JUndefined (own_property "arguments" props))
  | _ => Normal (JUndefined, JUndefined)
  end.

(** [error instanceof Error ? error.message : String(error)]; [String] may
    itself throw. *)
Definition thrown_text `{NumberToString} (error : Thrown) : Completion string :=
  match error with
  | Error message => Normal message
  | NonError v => ToString v
  end.

Section Server.
Context {W : Type} `{NumberToString}.

Variable zodToJsonSchema : ZodType W -> SE W JsValue.

(** [JSON.stringify(result, null, 2)]: a string, [undefined] for a value
    that has no JSON form, or an exception. *)
Variable JSON_stringify : JsValue -> Completion JsValue.

(** The value [tools[key]] evaluates to. *)
Inductive RegistryMember : Type :=
| OwnTool (toolDef : ToolDefinition W)
| InheritedMember
| NoMember.

Definition registry_get (tools : ToolRegistry W) (key : string) : RegistryMember :=
  match own_property key tools with
  | Some toolDef => OwnTool toolDef
  | None =>
      if bool_decide (key ∈ Object_prototype_keys) then InheritedMember
      else NoMember
  end.

(** The store of the server process together with the record of the
    [execute] calls made so far (tool name and argument). *)
Record Machine : Type := {
  store : W;
  invoked : list (string * JsValue)
}.

(** An external call, run on the store. *)
Definition extern {A} (m : SE W A) : SE Machine A :=
  fun st =>
    match m (store st) with
    | (c, w) => (c, {| store := w; invoked := invoked st |})
    end.

(** [await toolDef.execute(data)] *)
Definition invoke (toolName : string) (toolDef : ToolDefinition W) (data : JsValue)
  : SE Machine JsValue :=
  fun st =>
    match execute toolDef data (store st) with
    | (c, w) => (c, {| store := w; invoked := invoked st ++ [(toolName, data)] |})
    end.

Definition success (id : JsValue) (result : JsValue) : JsonRpcResponse :=
  {| res_jsonrpc := "2.0"; res_id := id;
     res_result := Some result; res_error := None |}.

Definition failure (id : JsValue) (error : JsonRpcError) : JsonRpcResponse :=
  {| res_jsonrpc := "2.0"; res_id := id;
     res_result := None; res_error := Some error |}.

Variable serverInfo : McpServerInfo.
Variable tools : ToolRegistry W.

Definition capabilities : JsValue := JObj [("tools", JObj [])].

(** The [switch (method)] inside the [try] of [handleRequest]. *)
Definition dispatch (id : JsValue) (method : string) (params : JsValue)
  : SE Machine JsonRpcResponse :=
  if bool_decide (method = "initialize") then
    mret (success id
            (JObj [("protocolVersion", JStr PROTOCOL_VERSION);
                   ("capabilities", capabilities);
                   ("serverInfo",
                     JObj [("name", JStr (name serverInfo));
                           ("version", JStr (version serverInfo))])]))
  else if bool_decide (method = "notifications/initialized") then
    mret (success id (JObj []))
  else if bool_decide (method = "tools/list") then
    toolList ← extern (se_map (fun entry =>
                  toolToMcpDefinition zodToJsonSchema entry.1 entry.2) tools);
    mret (success id (JObj [("tools", JArr toolList)]))
  else if bool_decide (method = "tools/call") then
    '(toolName, args) ← se_pure (destructure_params params);
    key ← se_pure (ToString toolName);
    match registry_get tools key with
    | NoMember =>
        mret (failure id
                {| code := -32602;
                   message := "Unknown tool: " +:+ key;
                   data := None |})
    | InheritedMember =>
        (* toolDef.parameters is undefined *)
        se_throw safeParse_of_undefined
    | OwnTool toolDef =>
        parseResult ← extern (safeParse (parameters toolDef)
                                (nullish_coalesce args (JObj [])));
        match parseResult with
        | SafeParseError error =>
            mret (failure id
                    {| code := -32602;
                       message := "Invalid parameters";
                       data := Some (format error) |})
        | SafeParseSuccess data =>
            result ← invoke key toolDef data;
            text ← (if bool_decide (typeof result = "string") then mret result
                    else se_pure (JSON_stringify result));
            mret (success id
                    (JObj [("content",
                            JArr [JObj [("type", JStr "text"); ("text", text)]])]))
        end
    end
  else if bool_decide (method = "ping") then
    mret (success id (JObj []))
  else
    mret (failure id
            {| code := -32601;
               message := "Method not found: " +:+ method;
               data := None |}).

Definition handleRequest (request : JsonRpcRequest) : SE Machine JsonRpcResponse :=
  let id := req_id request in
  let method := req_method request in
  let params := req_params request in
  try_catch (dispatch id method params)
    (fun error =>
       text ← se_pure (thrown_text error);
       mret (failure id
               {| code := -32603;
                  message := "Internal error";
                  data := Some (JStr text) |})).
End Server.

(** [serve(config)]: the defaults of the destructuring and the handler the
    transport is given. *)
Definition serverInfo_of (config : ServeOptions) : McpServerInfo :=
  {| name := default "toolcall-server" (opt_name config);
     version := default "1.0.0" (opt_version config) |}.

(** The ASCII white space and line terminators [trim] removes: tab, line
    feed, vertical tab, form feed, carriage return and space. *)
Definition is_white_space (c : nat) : bool :=
  bool_decide (c ∈ [9; 10; 11; 12; 13; 32]%nat).

(** The three-byte UTF-8 sequences of the other characters [trim] removes:
    U+1680, U+2000 to U+200A, U+2028, U+2029, U+202F, U+205F, U+3000 and
    U+FEFF. *)
Definition is_wide_space (b1 b2 b3 : nat) : bool :=
  bool_decide (b1 = 225 /\ b2 = 154 /\ b3 = 128)
  || bool_decide (b1 = 226 /\ b2 = 128 /\ 128 <= b3 <= 138)
  || bool_decide (b1 = 226 /\ b2 = 128 /\ b3 ∈ [168; 169; 175])
  || bool_decide (b1 = 226 /\ b2 = 129 /\ b3 = 159)
  || bool_decide (b1 = 227 /\ b2 = 128 /\ b3 = 128)
  || bool_decide (b1 = 239 /\ b2 = 187 /\ b3 = 191).

(** A text made of white space and line terminators only; U+00A0 is the
    two bytes 194, 160. *)
Fixpoint all_white_space (bytes : list nat) : bool :=
  match bytes with
  | [] => true
  | b1 :: rest1 =>
      if is_white_space b1 then all_white_space rest1
      else
        match rest1 with
        | [] => false
        | b2 :: rest2 =>
            if bool_decide (b1 = 194 /\ b2 = 160) then all_white_space rest2
            else
              match rest2 with
              | [] => false
              | b3 :: rest3 =>
                  if is_wide_space b1 b2 b3 then all_white_space rest3
                  else false
              end
        end
  end.

(** [!line.trim()] *)
Definition blank (line : string) : bool :=
  all_white_space (Ascii.nat_of_ascii <$> String.list_ascii_of_string line).

(** ** The handler as the transports call it *)

(** A member of a destructured value that is neither [undefined] nor [null]:
    the own property of an object, [undefined] for anything else (the names
    read, [jsonrpc], [id], [method] and [params], are not members of a
    built-in prototype). *)
Definition own_member (v : JsValue) (k : string) : JsValue :=
  match v with
  | JObj props => default JUndefined (own_property k props)
  | _ => JUndefined
  end.

Section Serve.
Context {W : Type} `{NumberToString}.
Variable zodToJsonSchema : ZodType W -> SE W JsValue.
Variable JSON_stringify : JsValue -> Completion JsValue.
Variable serverInfo : McpServerInfo.
Variable tools : ToolRegistry W.

(** [handleRequest] on whatever the transport parsed: the cast
    [as JsonRpcRequest] checks nothing.  Destructuring [null] throws before
    the [try] is entered; any other value yields its three members.  A
    [method] that is not a string equals none of the [case] labels, so the
    [switch] takes its [default], whose template literal converts the
    method to a string inside the [try].  (The [jsonrpc] member is never
    read.) *)
Definition handleRequest_untyped (request : JsValue) : SE Machine JsonRpcResponse :=
  match request with
  | JUndefined =>
      se_throw (Error "Cannot destructure property 'id' of 'request' as it is undefined.")
  | JNull =>
      se_throw (Error "Cannot destructure property 'id' of 'request' as it is null.")
  | _ =>
      match own_member request "method" with
      | JStr method =>
          handleRequest zodToJsonSchema JSON_stringify serverInfo tools
            {| req_jsonrpc := match own_member request "jsonrpc" with
                              | JStr version => version
                              | _ => ""
                              end;
               req_id := own_member request "id";
               req_method := method;
               req_params := own_member request "params" |}
      | method =>
          try_catch
            (name ← se_pure (ToString method);
             mret (failure (own_member request "id")
                     {| code := -32601;
                        message := "Method not found: " +:+ name;
                        data := None |}))
            (fun error =>
               text ← se_pure (thrown_text error);
               mret (failure (own_member request "id")
                       {| code := -32603;
                          message := "Internal error";
                          data := Some (JStr text) |}))
      end
  end.
End Serve.

(** ** The transports ([transport.ts]) *)

(** The response both transports write when their [try] block throws;
    [text] is [error instanceof Error ? error.message : String(error)]. *)
Definition parse_error_response (text : string) : JsonRpcResponse :=
  {| res_jsonrpc := "2.0"; res_id := JNum 0; res_result := None;
     res_error := Some {| code := -32700; message := "Parse error";
                          data := Some (JStr text) |} |}.

(** The server process as the stdio transport sees it: the state the handler
    works on and the lines printed by [console.log]. *)
Record Stdio (S : Type) : Type := {
  app : S;
  stdout : list string
}.
Arguments app {S} _.
Arguments stdout {S} _.

(** [http.IncomingMessage]: the method and the chunks of the body. *)
Record IncomingMessage : Type := {
  http_method : string;
  chunks : list string
}.

(** [http.ServerResponse]: the headers set, the status written and the body
    the response was ended with. *)
Record ServerResponse : Type := {
  headers : list (string * string);
  statusCode : option Z;
  ended : option string
}.

Definition fresh_response : ServerResponse :=
  {| headers := []; statusCode := None; ended := None |}.

(** [res.setHeader(name, value)] replaces a header of that name. *)
Fixpoint set_header (name value : string) (hs : list (string * string))
  : list (string * string) :=
  match hs with
  | [] => [(name, value)]
  | (n, v) :: rest =>
      if bool_decide (n = name) then (name, value) :: rest
      else (n, v) :: set_header name value rest
  end.

Definition setHeader (name value : string) (res : ServerResponse) : ServerResponse :=
  {| headers := set_header name value (headers res);
     statusCode := statusCode res; ended := ended res |}.

Definition writeHead (status : Z) (res : ServerResponse) : ServerResponse :=
  {| headers := headers res; statusCode := Some status; ended := ended res |}.

(** [res.end(text)]; [res.end()] ends with an empty body. *)
Definition end_with (text : string) (res : ServerResponse) : ServerResponse :=
  {| headers := headers res; statusCode := statusCode res; ended := Some text |}.

Section Transport.
Context {S : Type} `{NumberToString}.

Variable JSON_parse : string -> Completion JsValue.

(** [JSON.stringify(response)]: a response made of JSON trees always has a
    text. *)
Variable serialize : JsonRpcResponse -> string.

(** The [MessageHandler] the transport is created with. *)
Variable handler : JsValue -> SE S JsonRpcResponse.

Definition console_log (text : string) : SE (Stdio S) unit :=
  fun io => (Normal (), {| app := app io; stdout := stdout io ++ [text] |}).

Definition on_app {A} (m : SE S A) : SE (Stdio S) A :=
  fun io =>
    match m (app io) with
    | (c, s) => (c, {| app := s; stdout := stdout io |})
    end.

(** The ['line'] listener of [createStdioTransport]. *)
Definition stdio_on_line (line : string) : SE (Stdio S) unit :=
  if blank line then mret ()
  else
    try_catch
      (request ← se_pure (JSON_parse line);
       response ← on_app (handler request);
       console_log (serialize response))
      (fun error =>
         text ← se_pure (thrown_text error);
         console_log (serialize (parse_error_response text))).

(** The request listener of [createHttpTransport], from the moment the body
    has been read. *)
Definition http_on_request (req : IncomingMessage) : SE S ServerResponse :=
  let res :=
    setHeader "Access-Control-Allow-Headers" "Content-Type"
      (setHeader "Access-Control-Allow-Methods" "POST, OPTIONS"
         (setHeader "Access-Control-Allow-Origin" "*" fresh_response)) in
  if bool_decide (http_method req = "OPTIONS") then
    mret (end_with "" (writeHead 204 res))
  else if negb (bool_decide (http_method req = "POST")) then
    mret (end_with "Method not allowed" (writeHead 405 res))
  else
    let body := foldl (fun body chunk => body +:+ chunk) "" (chunks req) in
    try_catch
      (request ← se_pure (JSON_parse body);
       response ← handler request;
       mret (end_with (serialize response)
               (writeHead 200
                  (setHeader "Content-Type" "application/json" res))))
      (fun error =>
         text ← se_pure (thrown_text error);
         mret (end_with (serialize (parse_error_response text))
                 (writeHead 200
                    (setHeader "Content-Type" "application/json" res)))).
End Transport.

(** ** The client ([client.ts]) *)

#[global] Instance completion_mret : MRet Completion := fun A a => Normal a.
#[global] Instance completion_mbind : MBind Completion :=
  fun A B f c => match c with Normal a => f a | Throw e => Throw e end.

(** [v[i]] for an index [i]: an element of an array, a character of a
    string, the property of that name of an object. *)
Definition GetIndex (v : JsValue) (i : nat) : Completion JsValue :=
  match v with
  | JUndefined =>
      Throw (Error ("Cannot read properties of undefined (reading '"
                    +:+ pretty i +:+ "')"))
  | JNull =>
      Throw (Error ("Cannot read properties of null (reading '"
                    +:+ pretty i +:+ "')"))
  | JArr items => Normal (default JUndefined (items !! i))
  | JStr s =>
      Normal (match String.get i s with
              | Some c => JStr (String c "")
              | None => JUndefined
              end)
  | JObj props => Normal (default JUndefined (own_property (pretty i) props))
  | _ => Normal JUndefined
  end.

(** The state of a promise created by [request]. *)
Inductive PromiseState : Type :=
| Pending
| Fulfilled (response : JsValue)
| Rejected (reason : Thrown).

(** [PendingRequest]: the [resolve] and [reject] functions of one promise,
    identified by the promise they settle. *)
Record PendingRequest : Type := { promise : nat }.

(** Settling a promise has no effect once it is settled. *)
Definition settle (p : nat) (outcome : PromiseState) (heap : list PromiseState)
  : list PromiseState :=
  match heap !! p with
  | Some Pending => <[p := outcome]> heap
  | _ => heap
  end.

Definition resolve (pending : PendingRequest) (response : JsValue)
  : list PromiseState -> list PromiseState :=
  settle (promise pending) (Fulfilled response).

Definition reject (pending : PendingRequest) (error : Thrown)
  : list PromiseState -> list PromiseState :=
  settle (promise pending) (Rejected error).

(** The spawned process as the client sees it: the requests written to its
    standard input, one serialised request per line. *)
Record ChildProcess : Type := { stdin : list JsonRpcRequest }.

(** The private fields of [McpClient].  The keys of [pendingRequests] are the
    numbers [request] draws from [requestId]. *)
Record McpClient : Type := {
  process : option ChildProcess;
  httpUrl : option string;
  requestId : Z;
  pendingRequests : gmap Z PendingRequest;
  tools : list JsValue
}.

(** The client object together with the promises its requests created. *)
Record Runtime : Type := {
  client : McpClient;
  promises : list PromiseState
}.

(** What [request] hands back to be awaited: one of the client's own
    promises, or the exchange [fetch] runs with the HTTP server. *)
Inductive Awaited : Type :=
| OwnPromise (p : nat)
| FetchExchange (url : string) (request : JsonRpcRequest).

(** [new McpClient()] after [spawn]: the stdio branch of [connect], before the
    handshake. *)
Definition spawned : Runtime :=
  {| client := {| process := Some {| stdin := [] |};
                  httpUrl := None;
                  requestId := 0;
                  pendingRequests := ∅;
                  tools := [] |};
     promises := [] |}.

(** [private async request(method, params)] up to its first suspension. *)
Definition request (method : string) (params : JsValue) (rt : Runtime)
  : Completion Awaited * Runtime :=
  let c := client rt in
  let id := (requestId c + 1)%Z in
  let request :=
    {| req_jsonrpc := "2.0"; req_id := JNum id;
       req_method := method; req_params := params |} in
  match httpUrl c with
  | Some url =>
      (Normal (FetchExchange url request),
       {| client := {| process := process c; httpUrl := httpUrl c;
                       requestId := id;
                       pendingRequests := pendingRequests c;
                       tools := tools c |};
          promises := promises rt |})
  | None =>
      match process c with
      | None =>
          (Throw (Error "Not connected"),
           {| client := {| process := process c; httpUrl := httpUrl c;
                           requestId := id;
                           pendingRequests := pendingRequests c;
                           tools := tools c |};
              promises := promises rt |})
      | Some child =>
          let p := length (promises rt) in
          (Normal (OwnPromise p),
           {| client := {| process := Some {| stdin := stdin child ++ [request] |};
                           httpUrl := httpUrl c;
                           requestId := id;
                           pendingRequests :=
                             <[id := {| promise := p |}]> (pendingRequests c);
                           tools := tools c |};
              promises := promises rt ++ [Pending] |})
      end
  end.

(** [pendingRequests.get(key)]: the keys are numbers, so only a number can
    match one. *)
Definition pending_get (m : gmap Z PendingRequest) (key : JsValue)
  : option PendingRequest :=
  match key with
  | JNum n => m !! n
  | _ => None
  end.

Definition pending_delete (m : gmap Z PendingRequest) (key : JsValue)
  : gmap Z PendingRequest :=
  match key with
  | JNum n => delete n m
  | _ => m
  end.

Section Client.
Context `{NumberToString}.

(** [JSON.parse] *)
Variable JSON_parse : string -> Completion JsValue.

(** The ['line'] handler of the child's standard output. *)
Definition on_line (line : string) (rt : Runtime) : Runtime :=
  if blank line then rt
  else
    match JSON_parse line with
    | Throw _ => rt
    | Normal response =>
        match Get response "id" with
        | Throw _ => rt
        | Normal id =>
            let c := client rt in
            match pending_get (pendingRequests c) id with
            | None => rt
            | Some pending =>
                {| client := {| process := process c; httpUrl := httpUrl c;
                                requestId := requestId c;
                                pendingRequests :=
                                  pending_delete (pendingRequests c) id;
                                tools := tools c |};
                   promises := resolve pending response (promises rt) |}
            end
        end
    end.

(** The ['exit'] handler of the child process. *)
Definition on_exit (rt : Runtime) : Runtime :=
  let c := client rt in
  {| client := {| process := process c; httpUrl := httpUrl c;
                  requestId := requestId c;
                  pendingRequests := ∅;
                  tools := tools c |};
     promises :=
       foldl (fun heap pending => reject pending (Error "Process exited") heap)
             (promises rt)
             ((map_to_list (pendingRequests c)).*2) |}.

(** [close()] *)
Definition close (rt : Runtime) : Runtime :=
  let c := client rt in
  match process c with
  | Some _ =>
      {| client := {| process := None; httpUrl := httpUrl c;
                      requestId := requestId c;
                      pendingRequests := pendingRequests c;
                      tools := tools c |};
         promises := promises rt |}
  | None => rt
  end.

(** [listTools()] *)
Definition listTools (rt : Runtime) : list JsValue := tools (client rt).

(** The argument [call] passes to [request]; [args] defaults to [{}]. *)
Definition call_params (toolName : string) (args : JsValue) : JsValue :=
  JObj [("name", JStr toolName);
        ("arguments", match args with JUndefined => JObj [] | _ => args end)].

(** [call] from the point where [await this.request(...)] yields
    [response]. *)
Definition call_resume (response : JsValue) : Completion JsValue :=
  error ← Get response "error";
  if truthy error then
    message ← Get error "message";
    text ← match message with
           | JUndefined => Normal ""
           | _ => ToString message
           end;
    Throw (Error text)
  else
    result ← Get response "result";
    content ← Get result "content";
    first ← GetIndex content 0;
    chained ← match first with
              | JUndefined | JNull => Normal JUndefined
              | _ => Get first "text"
              end;
    let text := nullish_coalesce chained (JStr "") in
    match source ← ToString text; JSON_parse source with
    | Normal parsed => Normal parsed
    | Throw _ => Normal text
    end.

(** What the caller of [call] observes, given the state of the promise
    [request] returned: nothing while it is pending. *)
Definition call_outcome (awaited : PromiseState) : option (Completion JsValue) :=
  match awaited with
  | Pending => None
  | Fulfilled response => Some (call_resume response)
  | Rejected reason => Some (Throw reason)
  end.

(** The events of a stdio client's life after [spawn]. *)
Inductive ClientEvent : Type :=
| Request (method : string) (params : JsValue)
| Line (line : string)
| Exit
| Close.

Definition client_step (rt : Runtime) (ev : ClientEvent) : Runtime :=
  match ev with
  | Request method params => (request method params rt).2
  | Line line => on_line line rt
  | Exit => on_exit rt
  | Close => close rt
  end.

Definition client_run (events : list ClientEvent) : Runtime :=
  foldl client_step spawned events.
End Client.

(** ** The schema library, from the specification *)

(** [.default(v)] somewhere in the chain of modifiers of a field. *)
Fixpoint has_default (d : ZodDef) : bool :=
  match d with
  | ZDefault _ _ => true
  | ZOptional inner | ZDescribe inner _ => has_default inner
  | _ => false
  end.

(** [.optional()] somewhere in the chain of modifiers of a field. *)
Fixpoint optional_marking (d : ZodDef) : bool :=
  match d with
  | ZOptional _ => true
  | ZDefault inner _ | ZDescribe inner _ => optional_marking inner
  | _ => false
  end.

Definition is_required (d : ZodDef) : bool :=
  negb (has_default d || optional_marking d).

(** Names of the fields without a default and without optional marking, in
    declaration order. *)
Definition required_names (shape : list (string * ZodDef)) : list string :=
  (filter (fun field => is_required field.2 = true) shape).*1.

Definition bound (key : string) (b : option Z) : list (string * JsValue) :=
  match b with
  | Some n => [(key, JNum n)]
  | None => []
  end.

(** [{...schema, key: v}] *)
Definition with_member (key : string) (v : JsValue) (schema : JsValue) : JsValue :=
  match schema with
  | JObj props => JObj (props ++ [(key, v)])
  | _ => schema
  end.

(** Modelled from the spec: [zodToJsonSchema] belongs to the
    zod-to-json-schema package, whose code is not part of the repository.
    Section 4.1 of the specification fixes what it emits: an object schema
    becomes [{type:"object", properties, required}] with [required] the names
    of the fields without a default and without optional marking, left out
    when there is none; a field keeps its description, numeric bounds, string
    length bounds, enumeration, nested object shape, array element type and
    default value. *)
Fixpoint json_schema_of (d : ZodDef) : JsValue :=
  match d with
  | ZString minLength maxLength =>
      JObj ([("type", JStr "string")]
            ++ bound "minLength" minLength ++ bound "maxLength" maxLength)
  | ZNumber minimum maximum =>
      JObj ([("type", JStr "number")]
            ++ bound "minimum" minimum ++ bound "maximum" maximum)
  | ZBoolean => JObj [("type", JStr "boolean")]
  | ZEnum values =>
      JObj [("type", JStr "string"); ("enum", JArr (JStr <$> values))]
  | ZArray element =>
      JObj [("type", JStr "array"); ("items", json_schema_of element)]
  | ZObject shape =>
      let properties :=
        (fix fields (l : list (string * ZodDef)) : list (string * JsValue) :=
           match l with
           | [] => []
           | (k, f) :: l' => (k, json_schema_of f) :: fields l'
           end) shape in
      JObj ([("type", JStr "object"); ("properties", JObj properties)]
            ++ match required_names shape with
               | [] => []
               | names => [("required", JArr (JStr <$> names))]
               end)
  | ZOptional inner => json_schema_of inner
  | ZDefault inner value => with_member "default" value (json_schema_of inner)
  | ZDescribe inner description =>
      with_member "description" (JStr description) (json_schema_of inner)
  end.

(** Modelled from the spec: the library call, which reads the declared shape
    and touches nothing else (section 4.1: side-effect free). *)
Definition zodToJsonSchema_spec {W : Type} (schema : ZodType W) : SE W JsValue :=
  mret (json_schema_of (def schema)).

(** The array elements of a [required] member; an absent member names no
    field. *)
Definition required_entries (required : JsValue) : list JsValue :=
  match required with
  | JArr names => names
  | _ => []
  end.

(** ** The translator on objects held by reference *)

Module ByReference.

(** A value as a program holds it: a primitive, or a reference to an object
    of the heap. *)
Inductive HValue : Type :=
| HUndefined
| HNull
| HBool (b : bool)
| HNum (n : Z)
| HStr (s : string)
| HRef (l : nat).

(** An object of the heap: an object given by its own properties, an array,
    or a Zod schema, given by what it declares. *)
Inductive HObject : Type :=
| HRecord (props : list (string * HValue))
| HArray (items : list HValue)
| HZod (d : ZodDef).

(** The heap: the objects that exist, each at its location. *)
Abbreviation Heap := (list HObject).

(** An object or array literal evaluates to a new object. *)
Definition allocate (o : HObject) : SE Heap HValue :=
  fun h => (Normal (HRef (List.length h)), (h ++ [o])%list).

(** [typeof v]; the heap holds no function. *)
Definition typeof (v : HValue) : string :=
  match v with
  | HUndefined => "undefined"
  | HNull => "object"
  | HBool _ => "boolean"
  | HNum _ => "number"
  | HStr _ => "string"
  | HRef _ => "object"
  end.

(** [v.k] for the keys [type], [properties] and [required], as read on the
    result of the library: an own property of an object; an array has none
    of the three.  (The translator never reads a member of the Zod schema,
    which it only hands to the library.) *)
Definition Get (v : HValue) (k : string) : SE Heap HValue :=
  fun h =>
    (match v with
     | HUndefined =>
         Throw (Error ("Cannot read properties of undefined (reading '" +:+ k +:+ "')"))
     | HNull =>
         Throw (Error ("Cannot read properties of null (reading '" +:+ k +:+ "')"))
     | HRef l =>
         match h !! l with
         | Some (HRecord props) => Normal (default HUndefined (own_property k props))
         | _ => Normal HUndefined
         end
     | _ => Normal HUndefined
     end, h).

(** [v === 'object'] *)
Definition is_object_tag (v : HValue) : bool :=
  match v with
  | HStr s => bool_decide (s = "object")
  | _ => false
  end.

Section Translator.
(** [zodToJsonSchema(schema, { target: 'openApi3' })], given the location of
    the schema. *)
Variable zodToJsonSchema : nat -> SE Heap HValue.

Definition not_object_schema (jsonSchema : HValue) : SE Heap bool :=
  if negb (bool_decide (typeof jsonSchema = "object")) then mret true
  else
    t ← Get jsonSchema "type";
    mret (negb (is_object_tag t)).

(** [zodToMcpSchema], with every object literal of its two [return]
    statements a new object; the inner literals are numbered before the
    outer one. *)
Definition zodToMcpSchema (schema : nat) : SE Heap HValue :=
  jsonSchema ← zodToJsonSchema schema;
  wrap ← not_object_schema jsonSchema;
  if (wrap : bool) then
    properties ← allocate (HRecord [("value", jsonSchema)]);
    required ← allocate (HArray [HStr "value"]);
    allocate (HRecord [("type", HStr "object");
                       ("properties", properties);
                       ("required", required)])
  else
    found ← Get jsonSchema "properties";
    properties ← match found with
                 | HUndefined | HNull => allocate (HRecord [])
                 | _ => mret found
                 end;
    required ← Get jsonSchema "required";
    allocate (HRecord [("type", HStr "object");
                       ("properties", properties);
                       ("required", required)]).
End Translator.

(** The tree a value denotes in a heap: references are followed, at most
    [fuel] deep; a Zod schema and a missing object denote no tree. *)
Fixpoint reify (fuel : nat) (h : Heap) (v : HValue) : option JsValue :=
  match v with
  | HUndefined => Some JUndefined
  | HNull => Some JNull
  | HBool b => Some (JBool b)
  | HNum n => Some (JNum n)
  | HStr s => Some (JStr s)
  | HRef l =>
      match fuel with
      | 0 => None
      | S fuel' =>
          match h !! l with
          | Some (HRecord props) =>
              JObj <$> mapM (fun p => pair p.1 <$> reify fuel' h p.2) props
          | Some (HArray items) => JArr <$> mapM (reify fuel' h) items
          | _ => None
          end
      end
  end.

(** The values of a list stored one after the other. *)
Definition store_all {A : Type} (store : A -> Heap -> HValue * Heap)
  : list A -> Heap -> list HValue * Heap :=
  fix go (l : list A) (h : Heap) : list HValue * Heap :=
    match l with
    | [] => ([], h)
    | x :: l' =>
        let '(c, h1) := store x h in
        let '(cs, h2) := go l' h1 in
        (c :: cs, h2)
    end.

(** A tree built out of new objects. *)
Fixpoint store_tree (v : JsValue) (h : Heap) : HValue * Heap :=
  match v with
  | JUndefined => (HUndefined, h)
  | JNull => (HNull, h)
  | JBool b => (HBool b, h)
  | JNum n => (HNum n, h)
  | JStr s => (HStr s, h)
  | JArr items =>
      let '(cells, h') := store_all store_tree items h in
      (HRef (List.length h'), (h' ++ [HArray cells])%list)
  | JObj props =>
      let '(cells, h') := store_all (fun p => store_tree p.2) props h in
      (HRef (List.length h'), (h' ++ [HRecord (zip props.*1 cells)])%list)
  end.

(** Modelled from the spec: [zodToJsonSchema] of the zod-to-json-schema
    package on the heap.  It reads the schema object and returns what
    [json_schema_of] describes, built out of new objects; it writes to no
    object that exists (section 4.1: side-effect free).  Its argument is a
    schema by its type; on anything else the call fails. *)
Definition zodToJsonSchema_spec (schema : nat) : SE Heap HValue :=
  fun h =>
    match h !! schema with
    | Some (HZod d) =>
        let '(jsonSchema, h') := store_tree (json_schema_of d) h in
        (Normal jsonSchema, h')
    | _ => (Throw (Error "not a Zod schema"), h)
    end.
End ByReference.

(** ** Concrete collaborators, for the worked examples *)

(** The decimal numeral of an integer: what [Number::toString] gives for an
    integer below 10^21 in absolute value (a larger number is printed with
    an exponent).  It is the printer of the worked examples, which print no
    larger number; the general statements hold for every printer. *)
#[global] Instance decimal_numeral : NumberToString := fun n => pretty n.

Definition hex_digit (n : nat) : string :=
  String (Ascii.ascii_of_nat (if Nat.ltb n 10 then 48 + n else 87 + n)) "".

(** One character inside a JSON string literal. *)
Definition escape_char (c : Ascii.ascii) : string :=
  let n := Ascii.nat_of_ascii c in
  let backslash := String (Ascii.ascii_of_nat 92) "" in
  if Nat.eqb n 34 then backslash +:+ String c ""
  else if Nat.eqb n 92 then backslash +:+ backslash
  else if Nat.eqb n 8 then backslash +:+ "b"
  else if Nat.eqb n 9 then backslash +:+ "t"
  else if Nat.eqb n 10 then backslash +:+ "n"
  else if Nat.eqb n 12 then backslash +:+ "f"
  else if Nat.eqb n 13 then backslash +:+ "r"
  else if Nat.ltb n 32 then
    backslash +:+ "u00" +:+ hex_digit (n / 16) +:+ hex_digit (n mod 16)
  else String c "".

Definition quote (s : string) : string :=
  let mark := String (Ascii.ascii_of_nat 34) "" in
  mark +:+ String.concat "" (escape_char <$> String.list_ascii_of_string s) +:+ mark.

(** [JSON.stringify(v, null, 2)] on a JSON tree, at the given indentation;
    [None] where the built-in returns [undefined]. *)
Fixpoint stringify (indent : string) (v : JsValue) : option string :=
  let inner := indent +:+ "  " in
  match v with
  | JUndefined => None
  | JNull => Some "null"
  | JBool true => Some "true"
  | JBool false => Some "false"
  | JNum n => Some (Number_toString n)
  | JStr s => Some (quote s)
  | JArr items =>
      let parts :=
        (fix elements (l : list JsValue) : list string :=
           match l with
           | [] => []
           | x :: l' => default "null" (stringify inner x) :: elements l'
           end) items in
      match parts with
      | [] => Some "[]"
      | _ => Some ("[" +:+ String (Ascii.ascii_of_nat 10) inner
                   +:+ join_with ("," +:+ String (Ascii.ascii_of_nat 10) inner) parts
                   +:+ String (Ascii.ascii_of_nat 10) indent +:+ "]")
      end
  | JObj props =>
      let parts :=
        (fix members (l : list (string * JsValue)) : list string :=
           match l with
           | [] => []
           | (k, x) :: l' =>
               match stringify inner x with
               | Some text => (quote k +:+ ": " +:+ text) :: members l'
               | None => members l'
               end
           end) props in
      match parts with
      | [] => Some "{}"
      | _ => Some ("{" +:+ String (Ascii.ascii_of_nat 10) inner
                   +:+ join_with ("," +:+ String (Ascii.ascii_of_nat 10) inner) parts
                   +:+ String (Ascii.ascii_of_nat 10) indent +:+ "}")
      end
  end.

Definition JSON_stringify_pretty (v : JsValue) : Completion JsValue :=
  Normal (match stringify "" v with
          | Some text => JStr text
          | None => JUndefined
          end).

(** The report [error.format()] gives for one failing field. *)
Definition field_report (field reason : string) : JsValue :=
  JObj [("_errors", JArr []);
        (field, JObj [("_errors", JArr [JStr reason])])].

(** [greet] of the test registry:
    [z.object({ name: z.string().describe('Name to greet') })] and
    [({ name }) => `Hello, ${name}!`]. *)
Definition greet : ToolDefinition unit :=
  {| description := "Greet someone";
     parameters :=
       {| def := ZObject [("name", ZDescribe (ZString None None) "Name to greet")];
          safeParse := fun args =>
            mret (match args with
                  | JObj props =>
                      match own_property "name" props with
                      | Some (JStr s) => SafeParseSuccess (JObj [("name", JStr s)])
                      | Some v =>
                          SafeParseError
                            {| format := field_report "name"
                                 ("Expected string, received " +:+ typeof v) |}
                      | None =>
                          SafeParseError {| format := field_report "name" "Required" |}
                      end
                  | _ =>
                      SafeParseError
                        {| format := JObj [("_errors",
                             JArr [JStr ("Expected object, received " +:+ typeof args)])] |}
                  end) |};
     execute := fun data =>
       name ← se_pure (Get data "name");
       text ← se_pure (ToString name);
       mret (JStr ("Hello, " +:+ text +:+ "!")) |}.

(** [error_tool] of the test registry: [z.object({})] and a function that
    throws [new Error('Intentional error')]. *)
Definition error_tool : ToolDefinition unit :=
  {| description := "Tool that throws";
     parameters :=
       {| def := ZObject [];
          safeParse := fun args =>
            mret (match args with
                  | JObj _ => SafeParseSuccess (JObj [])
                  | _ =>
                      SafeParseError
                        {| format := JObj [("_errors",
                             JArr [JStr ("Expected object, received " +:+ typeof args)])] |}
                  end) |};
     execute := fun _ => se_throw (Error "Intentional error") |}.

(** A tool that throws a value that is not an [Error] and that [String]
    cannot convert: [z.object({})] and
    [() => { throw { toString: null } }]. *)
Definition opaque_tool : ToolDefinition unit :=
  {| description := "Tool that throws an object";
     parameters := parameters error_tool;
     execute := fun _ => se_throw (NonError (JObj [("toString", JNull)])) |}.

Definition testTools : ToolRegistry unit :=
  [("greet", greet); ("error_tool", error_tool)].

Definition testServerInfo : McpServerInfo :=
  {| name := "test-server"; version := "1.0.0" |}.

(** The handler of the test server, on an idle machine. *)
Definition testServer (tools : ToolRegistry unit) (request : JsonRpcRequest)
  : Completion JsonRpcResponse * Machine (W := unit) :=
  handleRequest zodToJsonSchema_spec JSON_stringify_pretty testServerInfo tools
    request {| store := (); invoked := [] |}.

(** The test server before any request. *)
Definition idle : Machine (W := unit) := {| store := (); invoked := [] |}.

(** A [tools/call] request. *)
Definition tools_call (id : JsValue) (toolName : string) (args : JsValue)
  : JsonRpcRequest :=
  {| req_jsonrpc := "2.0"; req_id := id; req_method := "tools/call";
     req_params := JObj [("name", JStr toolName); ("arguments", args)] |}.

(** A parser for the JSON texts of the examples: the three literal names;
    every other text, the empty one included, is a syntax error. *)
Definition parse_literal (text : string) : Completion JsValue :=
  if bool_decide (text = "null") then Normal JNull
  else if bool_decide (text = "true") then Normal (JBool true)
  else if bool_decide (text = "false") then Normal (JBool false)
  else Throw (Error "Unexpected end of JSON input").

(** [z.string()], with its validator. *)
Definition string_schema {W : Type} : ZodType W :=
  {| def := ZString None None;
     safeParse := fun input =>
       mret (match input with
             | JStr _ => SafeParseSuccess input
             | _ =>
                 SafeParseError
                   {| format := JObj [("_errors",
                        JArr [JStr ("Expected string, received " +:+ typeof input)])] |}
             end) |}.

(** The parameters of [get_weather] in [examples/server.ts]:
    [z.object({ city: z.string().describe('City name'),
                unit: z.enum(['celsius', 'fahrenheit']).default('celsius')
                        .describe('Temperature unit') })]. *)
Definition weather_shape : list (string * ZodDef) :=
  [("city", ZDescribe (ZString None None) "City name");
   ("unit", ZDescribe (ZDefault (ZEnum ["celsius"; "fahrenheit"]) (JStr "celsius"))
              "Temperature unit")].

Definition weather_schema {W : Type} : ZodType W :=
  {| def := ZObject weather_shape;
     safeParse := fun input =>
       mret (match input with
             | JObj props =>
                 match own_property "city" props with
                 | Some (JStr city) =>
                     SafeParseSuccess
                       (JObj [("city", JStr city);
                              ("unit", nullish_coalesce
                                         (default JUndefined (own_property "unit" props))
                                         (JStr "celsius"))])
                 | _ => SafeParseError {| format := field_report "city" "Required" |}
                 end
             | _ =>
                 SafeParseError
                   {| format := JObj [("_errors",
                        JArr [JStr ("Expected object, received " +:+ typeof input)])] |}
             end) |}.

(** Two requests sent by a stdio client: the first of the handshake, then a
    tool call. *)
Definition two_requests : list ClientEvent :=
  [Request "initialize" (JObj []);
   Request "tools/call" (JObj [("name", JStr "greet"); ("arguments", JObj [])])].

(** A successful response whose content array is empty. *)
Definition empty_content_response : JsValue :=
  JObj [("jsonrpc", JStr "2.0"); ("id", JNum 1);
        ("result", JObj [("content", JArr [])])].

(** A library that translates every schema but a bare [z.boolean()], on
    which it throws. *)
Definition picky_library {W : Type} (schema : ZodType W) : SE W JsValue :=
  match def schema with
  | ZBoolean => se_throw (Error "unsupported schema")
  | _ => zodToJsonSchema_spec schema
  end.

Definition boolean_tool : ToolDefinition unit :=
  {| description := "Takes a flag";
     parameters := {| def := ZBoolean;
                      safeParse := fun input => mret (SafeParseSuccess input) |};
     execute := fun input => mret input |}.

(** The response as the object literal the server builds. *)
Definition response_to_js (r : JsonRpcResponse) : JsValue :=
  JObj ([("jsonrpc", JStr (res_jsonrpc r)); ("id", res_id r)]
        ++ match res_result r with
           | Some result => [("result", result)]
           | None => []
           end
        ++ match res_error r with
           | Some e =>
               [("error",
                 JObj ([("code", JNum (code e)); ("message", JStr (message e))]
                       ++ match data e with
                          | Some d => [("data", d)]
                          | None => []
                          end))]
           | None => []
           end).

(** A serialisation for the examples: the indented text of the response
    ([JSON.stringify(response)] prints the same tree without white space). *)
Definition serialize_indented (r : JsonRpcResponse) : string :=
  default "" (stringify "" (response_to_js r)).

(** The JSON text [{"id":1,"method":"ping"}] and the value it denotes. *)
Definition ping_text : string :=
  "{" +:+ quote "id" +:+ ":1," +:+ quote "method" +:+ ":" +:+ quote "ping" +:+ "}".

Definition ping_value : JsValue := JObj [("id", JNum 1); ("method", JStr "ping")].

(** The JSON text [{"id":1,"result":{}}] and the value it denotes. *)
Definition reply_text : string :=
  "{" +:+ quote "id" +:+ ":1," +:+ quote "result" +:+ ":{}}".

Definition reply_value : JsValue := JObj [("id", JNum 1); ("result", JObj [])].

(** A parser for the texts of the examples: the two texts above and the
    three literal names; every other text is a syntax error. *)
Definition parse_known (text : string) : Completion JsValue :=
  if bool_decide (text = ping_text) then Normal ping_value
  else if bool_decide (text = reply_text) then Normal reply_value
  else parse_literal text.

(** A handler that throws on every request. *)
Definition failing_handler (request : JsValue) : SE unit JsonRpcResponse :=
  se_throw (Error "handler failed").

(** The handler of the test server as the transports call it. *)
Definition testHandler : JsValue -> SE (Machine (W := unit)) JsonRpcResponse :=
  handleRequest_untyped zodToJsonSchema_spec JSON_stringify_pretty
    testServerInfo testTools.

(** A response that reports an error. *)
Definition error_response : JsValue :=
  JObj [("jsonrpc", JStr "2.0"); ("id", JNum 1);
        ("error", JObj [("code", JNum (-32603)); ("message", JStr "Tool error")])].

(** The stdio server before any line. *)
Definition quiet {S : Type} (s : S) : Stdio S := {| app := s; stdout := [] |}.

(** The line that holds one no-break space (U+00A0, the bytes 194 and 160). *)
Definition no_break_space_line : string :=
  String (Ascii.ascii_of_nat 194) (String (Ascii.ascii_of_nat 160) EmptyString).

(** A parsed request whose [method] is an object with a [toString] member. *)
Definition object_method_request : JsValue :=
  JObj [("id", JNum 1); ("method", JObj [("toString", JNum 1)])].

(** A parsed request whose [method] is an array. *)
Definition array_method_request : JsValue :=
  JObj [("id", JNum 1); ("method", JArr [JStr "ping"])].

(** The two requests of [two_requests] as written to the child. *)
Definition two_requests_written : ChildProcess :=
  {| stdin :=
       [{| req_jsonrpc := "2.0"; req_id := JNum 1;
           req_method := "initialize"; req_params := JObj [] |};
        {| req_jsonrpc := "2.0"; req_id := JNum 2;
           req_method := "tools/call";
           req_params := JObj [("name", JStr "greet"); ("arguments", JObj [])] |}] |}.

(** A successful response with one text item. *)
Definition hello_response : JsValue :=
  JObj [("jsonrpc", JStr "2.0"); ("id", JNum 1);
        ("result", JObj [("content",
           JArr [JObj [("type", JStr "text"); ("text", JStr "Hello, World!")]])])].

(** ** Notions used by the statements *)

(** The response the [catch] block of [handleRequest] builds, [text] being
    the text it found for what was thrown. *)
Definition internal_error (id : JsValue) (text : string) : JsonRpcResponse :=
  {| res_jsonrpc := "2.0"; res_id := id; res_result := None;
     res_error := Some {| code := -32603; message := "Internal error";
                          data := Some (JStr text) |} |}.

(** What was thrown can be printed by a [catch] block: it is an [Error], or
    a value [String] converts. *)
Definition printable `{NumberToString} (e : Thrown) : Prop :=
  exists text, thrown_text e = Normal text.


Definition envelope (id : JsValue) (r : JsonRpcResponse) : Prop :=
  res_jsonrpc r = "2.0" /\ res_id r = id /\
  ((is_Some (res_result r) /\ res_error r = None) \/
   (res_result r = None /\ is_Some (res_error r))).

(** The [case] labels of the [switch] of [handleRequest]. *)
Definition known_methods : list string :=
  ["initialize"; "notifications/initialized"; "tools/list"; "tools/call"; "ping"].

(** The root of a JSON schema is an object shape: an object whose [type]
    member is the string [object]. *)
Definition declares_object (jsonSchema : JsValue) : Prop :=
  exists props,
    jsonSchema = JObj props /\ own_property "type" props = Some (JStr "object").

(** What holds of a stdio client between two events: every entry of
    [pendingRequests] refers to a promise that is still pending, every
    pending promise has an entry, no two entries share a promise, and no key
    exceeds [requestId]. *)
Definition client_inv (rt : Runtime) : Prop :=
  let m := pendingRequests (client rt) in
  (forall id pending,
      m !! id = Some pending -> promises rt !! promise pending = Some Pending)
  /\ (forall p,
        promises rt !! p = Some Pending ->
        exists id, m !! id = Some {| promise := p |})
  /\ (forall id1 id2 pending1 pending2,
        m !! id1 = Some pending1 -> m !! id2 = Some pending2 ->
        promise pending1 = promise pending2 -> id1 = id2)
  /\ (forall id pending, m !! id = Some pending -> (id <= requestId (client rt))%Z).

(** What holds of the requests a stdio client has written to its child: each
    carries a number above zero and at most [requestId], and the numbers
    grow along the stream. *)
Definition stdin_inv (rt : Runtime) : Prop :=
  (0 <= requestId (client rt))%Z
  /\ forall child,
       process (client rt) = Some child ->
       (forall i r,
           stdin child !! i = Some r ->
           exists a, req_id r = JNum a /\ (0 < a <= requestId (client rt))%Z)
       /\ (forall i j ri rj,
             i < j -> stdin child !! i = Some ri -> stdin child !! j = Some rj ->
             exists a b, req_id ri = JNum a /\ req_id rj = JNum b /\ (a < b)%Z).

(** * Properties *)

(** ** Conversions to a string *)

(** Induction on a tree, with the property for the elements of an array and
    the members of an object. *)
Lemma JsValue_tree_ind (P : JsValue -> Prop) :
  P JUndefined -> P JNull -> (forall b, P (JBool b)) ->
  (forall n, P (JNum n)) -> (forall s, P (JStr s)) ->
  (forall items, Forall P items -> P (JArr items)) ->
  (forall props, Forall (fun p => P p.2) props -> P (JObj props)) ->
  forall v, P v.
Proof.
  intros Hu Hn Hb Hz Hs Ha Ho. fix IH 1. intros [| |b|n|s|items|props];
    [exact Hu|exact Hn|apply Hb|apply Hz|apply Hs| |].
  - apply Ha. induction items as [|x l IHl]; constructor; [apply IH | apply IHl].
  - apply Ho. induction props as [|[k x] l IHl]; constructor;
      [apply IH | apply IHl].
Qed.

(** The only exception of [String] is the TypeError of an object that cannot
    be converted. *)
Lemma ToString_throws `{NumberToString} (v : JsValue) (e : Thrown) :
  ToString v = Throw e -> e = cannot_convert.
Proof.
  revert e. induction v as [| |b|n|s|items IHitems|props _]
    using JsValue_tree_ind; intros e; simpl; try done.
  - by destruct b.
  - set (elements := fix elements (l : list JsValue) : Completion (list string) := _).
    assert (Helements : forall e0, elements items = Throw e0 -> e0 = cannot_convert).
    { induction IHitems as [|x l Hx _ IHl]; intros e0; [done|].
      simpl.
      destruct (match x with JUndefined | JNull => Normal "" | _ => ToString x end)
        as [text|e1] eqn:Htext.
      - destruct (elements l) as [texts|e2]; [done|]. intros [= <-]. by apply IHl.
      - intros [= <-]. destruct x; try done; by apply Hx. }
    destruct (elements items) as [texts|e1]; [done|]. intros [= <-].
    by apply Helements.
  - destruct (own_property "toString" props); [|done]. by intros [= <-].
Qed.

Lemma thrown_text_throws `{NumberToString} (e e' : Thrown) :
  thrown_text e = Throw e' -> e' = cannot_convert.
Proof. destruct e as [message|v]; [done|]. apply ToString_throws. Qed.

(** ** The dispatcher *)

Ltac se_unfold :=
  unfold mbind, mret, se_mbind, se_mret, se_bind, se_ret, se_throw, se_pure,
    try_catch, extern, invoke in *.

Ltac unfold_dispatch := unfold dispatch, registry_get.
Ltac unfold_handleRequest := unfold handleRequest, try_catch.

Section ServerProperties.
Context {W : Type} `{NumberToString}.
Variable zodToJsonSchema : ZodType W -> SE W JsValue.
Variable JSON_stringify : JsValue -> Completion JsValue.
Variable serverInfo : McpServerInfo.
Variable tools : ToolRegistry W.

Local Abbreviation dispatch :=
  (dispatch zodToJsonSchema JSON_stringify serverInfo tools).
Local Abbreviation handleRequest :=
  (handleRequest zodToJsonSchema JSON_stringify serverInfo tools).

Lemma envelope_success id v : envelope id (success id v).
Proof. repeat split. left. split; [by eexists | done]. Qed.

Lemma envelope_failure id e : envelope id (failure id e).
Proof. repeat split. right. split; [done | by eexists]. Qed.

(** Whatever the [switch] returns normally is an envelope for the id. *)
Lemma dispatch_envelope id method params st r st' :
  dispatch id method params st = (Normal r, st') -> envelope id r.
Proof.
  unfold_dispatch. se_unfold. intros H0.
  repeat case_bool_decide;
    repeat (case_match; simplify_eq/=); simplify_eq/=;
    auto using envelope_success, envelope_failure.
Qed.

(** [handleRequest] in terms of its [try] block: a response is passed on, an
    exception becomes the -32603 response when the [catch] block finds a
    text for it, and leaves [handleRequest] when it does not. *)
Lemma handleRequest_unfold request st :
  handleRequest request st =
    match dispatch (req_id request) (req_method request) (req_params request) st
    with
    | (Normal r, st') => (Normal r, st')
    | (Throw e, st') =>
        match thrown_text e with
        | Normal text => (Normal (internal_error (req_id request) text), st')
        | Throw e' => (Throw e', st')
        end
    end.
Proof.
  unfold_handleRequest. se_unfold.
  destruct (dispatch _ _ _ st) as [[r|e] st']; [done|].
  by destruct (thrown_text e).
Qed.

(** Every response [handleRequest] returns is an envelope for the request's
    id. *)
Lemma handleRequest_envelope request st r st' :
  handleRequest request st = (Normal r, st') -> envelope (req_id request) r.
Proof.
  rewrite handleRequest_unfold.
  destruct (dispatch _ _ _ st) as [[r0|e] st0] eqn:Hd.
  - intros [= <- <-]. by eapply dispatch_envelope.
  - destruct (thrown_text e); [|done]. intros [= <- <-].
    apply envelope_failure.
Qed.

(** The only exception that leaves [handleRequest] is the TypeError of the
    [String(error)] of its [catch] block. *)
Lemma handleRequest_throws request st e st' :
  handleRequest request st = (Throw e, st') -> e = cannot_convert.
Proof.
  rewrite handleRequest_unfold.
  destruct (dispatch _ _ _ st) as [[r0|e0] st0]; [done|].
  destruct (thrown_text e0) eqn:Htext; [done|]. intros [= <- <-].
  by eapply thrown_text_throws.
Qed.

(** An exception raised while the parameters are destructured leaves the
    [switch] as it is. *)
Lemma dispatch_extraction_throws id params st e :
  destructure_params params = Throw e ->
  dispatch id "tools/call" params st = (Throw e, st).
Proof.
  intros He. unfold_dispatch. se_unfold.
  repeat (case_bool_decide; [done|]).
  rewrite bool_decide_eq_true_2 by done. by rewrite He.
Qed.

(** The [tools/call] branch up to the outcome of validation. *)
Lemma dispatch_own_tool id params st toolName args key toolDef :
  destructure_params params = Normal (toolName, args) ->
  ToString toolName = Normal key ->
  own_property key tools = Some toolDef ->
  dispatch id "tools/call" params st =
    match safeParse (parameters toolDef) (nullish_coalesce args (JObj []))
            (store st) with
    | (Throw e, w) => (Throw e, {| store := w; invoked := invoked st |})
    | (Normal (SafeParseError error), w) =>
        (Normal (failure id {| code := -32602;
                               message := "Invalid parameters";
                               data := Some (format error) |}),
         {| store := w; invoked := invoked st |})
    | (Normal (SafeParseSuccess data), w) =>
        match execute toolDef data w with
        | (Throw e, w') =>
            (Throw e, {| store := w';
                         invoked := invoked st ++ [(key, data)] |})
        | (Normal result, w') =>
            let st' := {| store := w';
                          invoked := invoked st ++ [(key, data)] |} in
            match (if bool_decide (typeof result = "string") then Normal result
                   else JSON_stringify result) with
            | Normal text =>
                (Normal (success id
                   (JObj [("content",
                           JArr [JObj [("type", JStr "text"); ("text", text)]])])),
                 st')
            | Throw e => (Throw e, st')
            end
        end
    end.
Proof.
  intros Hp Hkey Hown. unfold_dispatch. se_unfold.
  repeat (case_bool_decide; [done|]).
  rewrite bool_decide_eq_true_2 by done. rewrite Hp. simpl.
  rewrite Hkey, Hown. simpl.
  destruct (safeParse _ _ _) as [[[data|error]|e] w]; simpl; [|done..].
  destruct (execute _ _ _) as [[result|e] w']; simpl; [|done].
  case_bool_decide; [done|]. by destruct (JSON_stringify result).
Qed.

(** Whatever the [try] block throws and the [catch] block can print becomes
    the error response with code -32603 and message [Internal error], whose
    data is the message of the [Error] thrown (for a thrown value that is
    not an [Error], the text [String] gives for it).  This covers an
    exception raised while the parameters of a [tools/call] are extracted
    and an exception raised by the tool's [execute]. *)
Lemma handleRequest_converts_printable (request : JsonRpcRequest) (st : Machine) :
  (forall e st' text,
      dispatch (req_id request) (req_method request) (req_params request) st
        = (Throw e, st') ->
      thrown_text e = Normal text ->
      handleRequest request st =
        (Normal {| res_jsonrpc := "2.0"; res_id := req_id request;
                   res_result := None;
                   res_error := Some {| code := -32603;
                                        message := "Internal error";
                                        data := Some (JStr text) |} |},
         st')) /\
  (forall e text,
      req_method request = "tools/call" ->
      destructure_params (req_params request) = Throw e ->
      thrown_text e = Normal text ->
      handleRequest request st =
        (Normal {| res_jsonrpc := "2.0"; res_id := req_id request;
                   res_result := None;
                   res_error := Some {| code := -32603;
                                        message := "Internal error";
                                        data := Some (JStr text) |} |},
         st)) /\
  (forall toolName args key toolDef input e text w1 w2,
      req_method request = "tools/call" ->
      destructure_params (req_params request) = Normal (toolName, args) ->
      ToString toolName = Normal key ->
      own_property key tools = Some toolDef ->
      safeParse (parameters toolDef) (nullish_coalesce args (JObj [])) (store st)
        = (Normal (SafeParseSuccess input), w1) ->
      execute toolDef input w1 = (Throw e, w2) ->
      thrown_text e = Normal text ->
      handleRequest request st =
        (Normal {| res_jsonrpc := "2.0"; res_id := req_id request;
                   res_result := None;
                   res_error := Some {| code := -32603;
                                        message := "Internal error";
                                        data := Some (JStr text) |} |},
         {| store := w2; invoked := invoked st ++ [(key, input)] |})).
Proof.
  assert (Hcatch : forall e st' text,
    dispatch (req_id request) (req_method request) (req_params request) st
      = (Throw e, st') ->
    thrown_text e = Normal text ->
    handleRequest request st
      = (Normal (internal_error (req_id request) text), st')).
  { intros e st' text Hd Htext. by rewrite handleRequest_unfold, Hd, Htext. }
  split; [exact Hcatch|split].
  - intros e text Hm He Htext. apply (Hcatch e); [|done]. rewrite Hm.
    by apply dispatch_extraction_throws.
  - intros toolName args key toolDef input e text w1 w2
      Hm Hp Hkey Hown Hparse Hexec Htext.
    apply (Hcatch e); [|done]. rewrite Hm.
    by rewrite (dispatch_own_tool _ _ _ _ _ _ _ Hp Hkey Hown), Hparse, Hexec.
Qed.

(** Where the [catch] block can print whatever the [try] block throws,
    [handleRequest] returns a response. *)
Lemma handleRequest_returns (request : JsonRpcRequest) (st : Machine) :
  (forall e st',
      dispatch (req_id request) (req_method request) (req_params request) st
        = (Throw e, st') -> printable e) ->
  exists response st', handleRequest request st = (Normal response, st').
Proof.
  intros Hprint. rewrite handleRequest_unfold.
  destruct (dispatch _ _ _ st) as [[r|e] st0]; [by eauto|].
  destruct (Hprint e st0 eq_refl) as [text ->]. by eauto.
Qed.

(** C2. Every response [handleRequest] returns carries the id of the
    request, whatever the method and whether the response is a success or an
    error; and it returns one whenever its [catch] block can print what the
    [try] block throws. *)
Theorem handleRequest_echoes_id (request : JsonRpcRequest) (st : Machine) :
  (forall response st',
      handleRequest request st = (Normal response, st') ->
      res_id response = req_id request)
  /\ ((forall e st',
          dispatch (req_id request) (req_method request) (req_params request) st
            = (Throw e, st') -> printable e) ->
      exists response st',
        handleRequest request st = (Normal response, st')
        /\ res_id response = req_id request).
Proof.
  assert (Hid : forall response st',
    handleRequest request st = (Normal response, st') ->
    res_id response = req_id request).
  { intros response st' Hr.
    by destruct (handleRequest_envelope _ _ _ _ Hr) as (_ & Hid & _). }
  split; [exact Hid|]. intros Hprint.
  destruct (handleRequest_returns _ _ Hprint) as (response & st' & Hr).
  exists response, st'. split; [done|]. by eapply Hid.
Qed.

(** C3. A [tools/call] naming a tool of the registry whose arguments fail
    validation is answered with code -32602, message [Invalid parameters]
    and the validation report as data, whatever the report says; [execute]
    is not called: the record of invocations is unchanged, and the store is
    the one validation left. *)
Theorem invalid_parameters_response
    (request : JsonRpcRequest) (st : Machine)
    (toolName args : JsValue) (key : string) (toolDef : ToolDefinition W)
    (error : ZodError) (w : W) :
  req_method request = "tools/call" ->
  destructure_params (req_params request) = Normal (toolName, args) ->
  ToString toolName = Normal key ->
  own_property key tools = Some toolDef ->
  safeParse (parameters toolDef) (nullish_coalesce args (JObj [])) (store st)
    = (Normal (SafeParseError error), w) ->
  handleRequest request st =
    (Normal {| res_jsonrpc := "2.0";
               res_id := req_id request;
               res_result := None;
               res_error := Some {| code := -32602;
                                    message := "Invalid parameters";
                                    data := Some (format error) |} |},
     {| store := w; invoked := invoked st |}).
Proof.
  intros Hm Hp Hkey Hown Hparse.
  rewrite handleRequest_unfold, Hm.
  by rewrite (dispatch_own_tool _ _ _ _ _ _ _ Hp Hkey Hown), Hparse.
Qed.

(** X6. A [tools/call] whose tool name, as a property key, is neither a tool
    of the registry nor a name every object inherits is answered with code
    -32602, message [Unknown tool: <name>] and no data, and no tool runs. *)
Lemma unknown_tool_response (request : JsonRpcRequest) (st : Machine)
    (toolName args : JsValue) (key : string) :
  req_method request = "tools/call" ->
  destructure_params (req_params request) = Normal (toolName, args) ->
  ToString toolName = Normal key ->
  own_property key tools = None ->
  key ∉ Object_prototype_keys ->
  handleRequest request st =
    (Normal {| res_jsonrpc := "2.0";
               res_id := req_id request;
               res_result := None;
               res_error := Some {| code := -32602;
                                    message := "Unknown tool: " +:+ key;
                                    data := None |} |},
     st).
Proof.
  intros Hm Hp Hkey Hown Hproto.
  unfold_handleRequest. unfold_dispatch.
  se_unfold. rewrite Hm.
  repeat (case_bool_decide; [done|]).
  rewrite bool_decide_eq_true_2 by done. rewrite Hp. simpl.
  rewrite Hkey, Hown. simpl.
  by rewrite bool_decide_eq_false_2.
Qed.

(** A [tools/call] whose tool name is not a tool of the registry but is a
    name every object inherits ([toString], [constructor], ...) passes the
    [!toolDef] test and fails at [toolDef.parameters.safeParse]. *)
Lemma inherited_name_response (request : JsonRpcRequest) (st : Machine)
    (toolName args : JsValue) (key : string) :
  req_method request = "tools/call" ->
  destructure_params (req_params request) = Normal (toolName, args) ->
  ToString toolName = Normal key ->
  own_property key tools = None ->
  key ∈ Object_prototype_keys ->
  handleRequest request st =
    (Normal (internal_error (req_id request)
               "Cannot read properties of undefined (reading 'safeParse')"),
     st).
Proof.
  intros Hm Hp Hkey Hown Hproto.
  unfold_handleRequest. unfold_dispatch.
  se_unfold. rewrite Hm.
  repeat (case_bool_decide; [done|]).
  rewrite bool_decide_eq_true_2 by done. rewrite Hp. simpl.
  rewrite Hkey, Hown. simpl.
  by rewrite bool_decide_eq_true_2.
Qed.

(** C5. Every response [handleRequest] returns has exactly one of the
    members [result] and [error], whatever the method and on the error
    paths too; and it returns one whenever its [catch] block can print what
    the [try] block throws. *)
Theorem handleRequest_result_xor_error (request : JsonRpcRequest) (st : Machine) :
  (forall response st',
      handleRequest request st = (Normal response, st') ->
      (is_Some (res_result response) /\ res_error response = None)
      \/ (res_result response = None /\ is_Some (res_error response)))
  /\ ((forall e st',
          dispatch (req_id request) (req_method request) (req_params request) st
            = (Throw e, st') -> printable e) ->
      exists response st',
        handleRequest request st = (Normal response, st')
        /\ ((is_Some (res_result response) /\ res_error response = None)
            \/ (res_result response = None /\ is_Some (res_error response)))).
Proof.
  assert (Hxor : forall response st',
    handleRequest request st = (Normal response, st') ->
    (is_Some (res_result response) /\ res_error response = None)
    \/ (res_result response = None /\ is_Some (res_error response))).
  { intros response st' Hr.
    by destruct (handleRequest_envelope _ _ _ _ Hr) as (_ & _ & Hx). }
  split; [exact Hxor|]. intros Hprint.
  destruct (handleRequest_returns _ _ Hprint) as (response & st' & Hr).
  exists response, st'. split; [done|]. by eapply Hxor.
Qed.
End ServerProperties.

(** ** The wire-schema translator *)

Section TranslatorProperties.
Context {W : Type}.
Variable zodToJsonSchema : ZodType W -> SE W JsValue.

(** The guard of [zodToMcpSchema] holds for every schema whose root is not
    an object shape ([null] apart, on which reading [type] throws) and fails
    for the others. *)
Lemma not_object_schema_true (jsonSchema : JsValue) :
  jsonSchema <> JNull -> ~ declares_object jsonSchema ->
  not_object_schema jsonSchema = Normal true.
Proof.
  intros Hnull Hshape. unfold not_object_schema.
  destruct jsonSchema as [| |b|n|s|items|props]; simpl; try done.
  unfold is_object_tag.
  destruct (own_property "type" props) as [[| |b|n|s|items'|props']|] eqn:Ht;
    simpl; try done.
  rewrite bool_decide_eq_false_2; [done|].
  intros ->. apply Hshape. by exists props.
Qed.

Lemma not_object_schema_false (jsonSchema : JsValue) :
  declares_object jsonSchema -> not_object_schema jsonSchema = Normal false.
Proof.
  intros (props & -> & Ht). unfold not_object_schema. simpl. by rewrite Ht.
Qed.

(** C6. When the schema the library returns for the root is not an object
    shape, [zodToMcpSchema] yields exactly
    [{type:"object", properties:{value: <that schema>}, required:["value"]}].
    (The library returns a JSON schema, which is never [null].) *)
Theorem zodToMcpSchema_wraps_non_object
    (schema : ZodType W) (w w' : W) (jsonSchema : JsValue) :
  zodToJsonSchema schema w = (Normal jsonSchema, w') ->
  jsonSchema <> JNull ->
  ~ declares_object jsonSchema ->
  zodToMcpSchema zodToJsonSchema schema w =
    (Normal (JObj [("type", JStr "object");
                   ("properties", JObj [("value", jsonSchema)]);
                   ("required", JArr [JStr "value"])]),
     w').
Proof.
  intros Hlib Hnull Hshape. unfold zodToMcpSchema. se_unfold.
  by rewrite Hlib, (not_object_schema_true _ Hnull Hshape).
Qed.

(** When the root is an object shape, [properties] (or [{}]) and [required]
    are passed through. *)
Lemma zodToMcpSchema_object_root
    (schema : ZodType W) (w w' : W) (props : list (string * JsValue)) :
  zodToJsonSchema schema w = (Normal (JObj props), w') ->
  own_property "type" props = Some (JStr "object") ->
  zodToMcpSchema zodToJsonSchema schema w =
    (Normal (JObj [("type", JStr "object");
                   ("properties",
                     nullish_coalesce
                       (default JUndefined (own_property "properties" props))
                       (JObj []));
                   ("required",
                     default JUndefined (own_property "required" props))]),
     w').
Proof.
  intros Hlib Htype. unfold zodToMcpSchema. se_unfold.
  rewrite Hlib, (not_object_schema_false (JObj props)); [done|].
  by exists props.
Qed.

End TranslatorProperties.

(** The properties the library model emits for a shape. *)
Lemma json_schema_of_object (shape : list (string * ZodDef)) :
  json_schema_of (ZObject shape) =
    JObj ([("type", JStr "object");
           ("properties", JObj (prod_map id json_schema_of <$> shape))]
          ++ match required_names shape with
             | [] => []
             | names => [("required", JArr (JStr <$> names))]
             end).
Proof.
  simpl. do 4 f_equal. induction shape as [|[k f] shape IH]; [done|].
  injection IH as IH. rewrite fmap_cons. simpl. by rewrite IH.
Qed.

Lemma own_property_fmap {A B} (g : A -> B) k (l : list (string * A)) :
  own_property k (prod_map id g <$> l) = g <$> own_property k l.
Proof.
  induction l as [|[k' a] l IH]; [done|]. simpl. by case_bool_decide.
Qed.

Lemma own_property_is_Some {A} k (a : A) (l : list (string * A)) :
  (k, a) ∈ l -> is_Some (own_property k l).
Proof.
  induction l as [|[k' a'] l IH]; [by intros ?%elem_of_nil|].
  intros [?|?]%elem_of_cons; simplify_eq/=.
  - rewrite bool_decide_eq_true_2; eauto.
  - case_bool_decide; eauto.
Qed.

Lemma NoDup_fst_functional {A B} (l : list (A * B)) x y1 y2 :
  NoDup l.*1 -> (x, y1) ∈ l -> (x, y2) ∈ l -> y1 = y2.
Proof.
  induction l as [|[x' y'] l IH]; [by intros _ ?%elem_of_nil|].
  rewrite fmap_cons, NoDup_cons. simpl. intros [Hnotin Hnodup].
  intros [?|H1]%elem_of_cons [?|H2]%elem_of_cons; simplify_eq; auto.
  - destruct Hnotin. apply list_elem_of_fmap. by eexists (_, y2).
  - destruct Hnotin. apply list_elem_of_fmap. by eexists (_, y1).
Qed.

(** With distinct field names, a name is required exactly when its field
    is. *)
Lemma required_names_spec (shape : list (string * ZodDef)) field d :
  NoDup shape.*1 -> (field, d) ∈ shape ->
  field ∈ required_names shape <-> is_required d = true.
Proof.
  intros Hnodup Hin. unfold required_names. split.
  - intros ([field' d'] & -> & [Hreq Hin']%list_elem_of_filter)%list_elem_of_fmap.
    simpl in *.
    assert (d' = d) as -> by (by eapply NoDup_fst_functional). done.
  - intros Hreq. apply list_elem_of_fmap. exists (field, d).
    split; [done|]. by apply list_elem_of_filter.
Qed.

Section RequiredNess.
Context {W : Type}.

(** C7. For an object schema with distinct field names, the output of
    [zodToMcpSchema] is [{type:"object", properties, required}] where a field
    with a default is a member of [properties] and is not named in
    [required], a field with neither default nor optional marking is a member
    of [properties] and is named in [required], and for the schema without
    fields [properties] is empty and [required] names nothing. *)
Theorem object_schema_requiredness
    (schema : ZodType W) (shape : list (string * ZodDef)) (w : W) :
  def schema = ZObject shape ->
  NoDup shape.*1 ->
  exists properties required,
    zodToMcpSchema zodToJsonSchema_spec schema w =
      (Normal (JObj [("type", JStr "object");
                     ("properties", JObj properties);
                     ("required", required)]), w)
    /\ (forall field d,
          (field, d) ∈ shape -> has_default d = true ->
          is_Some (own_property field properties)
          /\ JStr field ∉ required_entries required)
    /\ (forall field d,
          (field, d) ∈ shape ->
          has_default d = false -> optional_marking d = false ->
          is_Some (own_property field properties)
          /\ JStr field ∈ required_entries required)
    /\ (shape = [] -> properties = [] /\ required_entries required = []).
Proof.
  intros Hdef Hnodup.
  exists (prod_map id json_schema_of <$> shape),
         (match required_names shape with
          | [] => JUndefined
          | names => JArr (JStr <$> names)
          end).
  assert (Hentries : forall field,
    JStr field ∈ required_entries
      (match required_names shape with
       | [] => JUndefined
       | names => JArr (JStr <$> names)
       end) <-> field ∈ required_names shape).
  { intros field. destruct (required_names shape) as [|n names] eqn:Hn; simpl.
    - split; by intros ?%elem_of_nil.
    - rewrite <- fmap_cons. split.
      + intros (? & ? & ?)%list_elem_of_fmap. by simplify_eq.
      + intros ?. by apply list_elem_of_fmap_2. }
  split; [|split; [|split]].
  - unfold zodToMcpSchema, zodToJsonSchema_spec. se_unfold.
    rewrite Hdef, json_schema_of_object. simpl.
    by destruct (required_names shape).
  - intros field d Hin Hdefault. split.
    + rewrite own_property_fmap. apply fmap_is_Some.
      by eapply own_property_is_Some.
    + rewrite Hentries, (required_names_spec _ _ _ Hnodup Hin).
      unfold is_required. by rewrite Hdefault.
  - intros field d Hin Hdefault Hopt. split.
    + rewrite own_property_fmap. apply fmap_is_Some.
      by eapply own_property_is_Some.
    + rewrite Hentries, (required_names_spec _ _ _ Hnodup Hin).
      unfold is_required. by rewrite Hdefault, Hopt.
  - by intros ->.
Qed.
End RequiredNess.

Lemma json_schema_of_is_object (d : ZodDef) :
  exists props, json_schema_of d = JObj props.
Proof.
  induction d as [? ?|? ?| |?|? _|shape|inner IH|inner IH value
                 |inner IH description];
    simpl; eauto.
  - destruct IH as [props ->]. simpl. eauto.
  - destruct IH as [props ->]. simpl. eauto.
Qed.


(** ** The translator on objects held by reference *)

(** What a reference to an object, and to an array, denotes. *)
Lemma reify_record fuel h l props members :
  h !! l = Some (ByReference.HRecord props) ->
  Forall2 (fun p q => p.1 = q.1 /\ ByReference.reify fuel h p.2 = Some q.2)
    props members ->
  ByReference.reify (S fuel) h (ByReference.HRef l) = Some (JObj members).
Proof.
  intros Hl Hall. simpl. rewrite Hl. apply fmap_Some. exists members.
  split; [|done]. apply mapM_Some. eapply Forall2_impl; [exact Hall|].
  intros [k c] [k' x] [Hk Hc]. simpl in *. subst k'. by rewrite Hc.
Qed.

Lemma reify_array fuel h l items elements :
  h !! l = Some (ByReference.HArray items) ->
  Forall2 (fun c x => ByReference.reify fuel h c = Some x) items elements ->
  ByReference.reify (S fuel) h (ByReference.HRef l) = Some (JArr elements).
Proof.
  intros Hl Hall. simpl. rewrite Hl. apply fmap_Some. exists elements.
  split; [|done]. by apply mapM_Some.
Qed.

Lemma reify_record_inv fuel h l props tree :
  h !! l = Some (ByReference.HRecord props) ->
  ByReference.reify (S fuel) h (ByReference.HRef l) = Some tree ->
  exists members,
    tree = JObj members
    /\ Forall2 (fun p q => p.1 = q.1 /\ ByReference.reify fuel h p.2 = Some q.2)
         props members.
Proof.
  intros Hl. simpl. rewrite Hl. intros (members & Hm & ->)%fmap_Some.
  exists members. split; [done|]. apply mapM_Some in Hm.
  eapply Forall2_impl; [exact Hm|].
  intros [k c] [k' x]. simpl. by intros (y & -> & [= -> ->])%fmap_Some.
Qed.

(** A tree denoted in a heap is denoted in every larger heap, and with more
    fuel. *)
Lemma reify_mono fuel fuel' h more v tree :
  ByReference.reify fuel h v = Some tree -> fuel <= fuel' ->
  ByReference.reify fuel' (h ++ more)%list v = Some tree.
Proof.
  revert fuel' v tree.
  induction fuel as [|fuel IH]; intros fuel' v tree Hr Hle.
  - destruct v; destruct fuel'; simpl in *; done.
  - destruct fuel' as [|fuel']; [lia|].
    destruct v as [| |b|n|s|l]; simpl in *; try done.
    destruct (h !! l) as [[props|items|d]|] eqn:Hl; try done;
      rewrite (lookup_app_l_Some _ _ _ _ Hl).
    + apply fmap_Some in Hr as (members & Hm & ->). apply fmap_Some.
      exists members. split; [|done]. apply mapM_Some. apply mapM_Some in Hm.
      eapply Forall2_impl; [exact Hm|].
      intros [k c] q. simpl. intros (y & Hy & ->)%fmap_Some.
      rewrite (IH fuel' c y Hy); [done|lia].
    + apply fmap_Some in Hr as (elements & Hm & ->). apply fmap_Some.
      exists elements. split; [|done]. apply mapM_Some. apply mapM_Some in Hm.
      eapply Forall2_impl; [exact Hm|].
      intros c x Hc. apply IH; [done|lia].
Qed.

(** Storing a list of values extends the heap, and each stored value denotes
    the value it was stored for. *)
Lemma store_all_spec {A : Type}
    (store : A -> ByReference.Heap -> ByReference.HValue * ByReference.Heap)
    (value : A -> JsValue) (l : list A) :
  Forall (fun x => forall h,
            (exists more, (store x h).2 = (h ++ more)%list)
            /\ exists fuel,
                 ByReference.reify fuel (store x h).2 (store x h).1
                 = Some (value x)) l ->
  forall h,
    (exists more, (ByReference.store_all store l h).2 = (h ++ more)%list)
    /\ exists fuel,
         Forall2 (fun c x =>
                    ByReference.reify fuel (ByReference.store_all store l h).2 c
                    = Some (value x))
           (ByReference.store_all store l h).1 l.
Proof.
  induction 1 as [|x l Hx _ IH]; intros h; simpl.
  - split; [exists []; by rewrite app_nil_r|]. exists 0. constructor.
  - destruct (Hx h) as [[more1 Hext1] [fuel1 Hx1]].
    destruct (store x h) as [c h1] eqn:Hstore. simpl in *.
    destruct (IH h1) as [[more2 Hext2] [fuel2 Hl2]].
    destruct (ByReference.store_all store l h1) as [cs h2] eqn:Hrest.
    simpl in *. subst h1 h2. split.
    + exists (more1 ++ more2)%list. by rewrite app_assoc.
    + exists (fuel1 `max` fuel2). constructor.
      * apply (reify_mono fuel1); [done|lia].
      * eapply Forall2_impl; [exact Hl2|]. intros c' x' Hc. simpl in Hc.
        rewrite <- (app_nil_r ((h ++ more1) ++ more2)%list).
        apply (reify_mono fuel2); [done|lia].
Qed.

(** A stored tree is made of new objects, and denotes the tree. *)
Lemma store_tree_spec (v : JsValue) (h : ByReference.Heap) :
  (exists more, (ByReference.store_tree v h).2 = (h ++ more)%list)
  /\ exists fuel,
       ByReference.reify fuel (ByReference.store_tree v h).2
         (ByReference.store_tree v h).1 = Some v.
Proof.
  revert h. induction v as [| |b|n|s|items IH|props IH] using JsValue_tree_ind;
    intros h; simpl;
    try (split; [exists []; by rewrite app_nil_r|by exists 0]).
  - destruct (store_all_spec ByReference.store_tree id items IH h)
      as [[more Hext] [fuel Hall]].
    destruct (ByReference.store_all ByReference.store_tree items h)
      as [cells h'] eqn:Hstore. simpl in *. subst h'. split.
    + exists (more ++ [ByReference.HArray cells])%list. by rewrite app_assoc.
    + exists (S fuel). apply (reify_array _ _ _ cells).
      * by apply list_lookup_middle.
      * eapply Forall2_impl; [exact Hall|]. intros c x Hc.
        apply (reify_mono fuel); [done|lia].
  - destruct (store_all_spec (fun p => ByReference.store_tree p.2) snd props IH h)
      as [[more Hext] [fuel Hall]].
    destruct (ByReference.store_all _ props h) as [cells h'] eqn:Hstore.
    simpl in *. subst h'. split.
    + exists (more ++ [ByReference.HRecord (zip props.*1 cells)])%list.
      by rewrite app_assoc.
    + exists (S fuel). apply (reify_record _ _ _ (zip props.*1 cells)).
      * by apply list_lookup_middle.
      * clear Hstore IH. revert Hall. generalize (h ++ more)%list. intros h0 Hall.
        assert (Hall' : Forall2 (fun c p =>
                  ByReference.reify fuel
                    (h0 ++ [ByReference.HRecord (zip props.*1 cells)])%list c
                  = Some p.2) cells props).
        { eapply Forall2_impl; [exact Hall|]. intros c p Hc.
          apply (reify_mono fuel); [done|lia]. }
        clear Hall. revert Hall'.
        generalize (h0 ++ [ByReference.HRecord (zip props.*1 cells)])%list.
        intros h1. induction 1 as [|c [k x] cs ps Hc _ IHl]; simpl;
          constructor; auto.
Qed.

Lemma reify_primitive fuel h v :
  match v with ByReference.HRef _ => False | _ => True end ->
  ByReference.reify fuel h v
  = Some match v with
         | ByReference.HUndefined => JUndefined
         | ByReference.HNull => JNull
         | ByReference.HBool b => JBool b
         | ByReference.HNum n => JNum n
         | ByReference.HStr s => JStr s
         | ByReference.HRef _ => JUndefined
         end.
Proof. by destruct v, fuel. Qed.

(** A reference denotes an object or an array. *)
Lemma reify_ref_inv fuel h l tree :
  ByReference.reify fuel h (ByReference.HRef l) = Some tree ->
  exists fuel0,
    fuel = S fuel0
    /\ ((exists props members,
           h !! l = Some (ByReference.HRecord props)
           /\ tree = JObj members
           /\ Forall2 (fun p q =>
                         p.1 = q.1 /\ ByReference.reify fuel0 h p.2 = Some q.2)
                props members)
        \/ (exists items elements,
              h !! l = Some (ByReference.HArray items) /\ tree = JArr elements)).
Proof.
  destruct fuel as [|fuel0]; [done|]. intros Hr. exists fuel0. split; [done|].
  destruct (h !! l) as [[props|items|d]|] eqn:Hl.
  - destruct (reify_record_inv _ _ _ _ _ Hl Hr) as (members & -> & Hall).
    left. by exists props, members.
  - simpl in Hr. rewrite Hl in Hr. apply fmap_Some in Hr as (elements & _ & ->).
    right. by exists items, elements.
  - simpl in Hr. by rewrite Hl in Hr.
  - simpl in Hr. by rewrite Hl in Hr.
Qed.

(** A member read on the heap denotes the member read on the tree. *)
Lemma reify_member fuel h props members k :
  Forall2 (fun p q => p.1 = q.1 /\ ByReference.reify fuel h p.2 = Some q.2)
    props members ->
  ByReference.reify fuel h (default ByReference.HUndefined (own_property k props))
  = Some (default JUndefined (own_property k members)).
Proof.
  induction 1 as [|[k1 c] [k2 x] props members [Hk Hc] _ IH]; simpl in *.
  - by destruct fuel.
  - subst k2. by case_bool_decide.
Qed.

Lemma reify_is_object_tag fuel h v tree :
  ByReference.reify fuel h v = Some tree ->
  ByReference.is_object_tag v = is_object_tag tree.
Proof.
  destruct v as [| |b|n|s|l].
  1-5: rewrite reify_primitive by done; by intros [= <-].
  intros Hr. destruct (reify_ref_inv _ _ _ _ Hr)
    as (fuel0 & _ & [(? & ? & _ & -> & _)|(? & ? & _ & ->)]); done.
Qed.

Lemma reify_nullish fuel h v tree :
  ByReference.reify fuel h v = Some tree ->
  match v with
  | ByReference.HUndefined | ByReference.HNull =>
      tree = JUndefined \/ tree = JNull
  | _ => nullish_coalesce tree (JObj []) = tree
  end.
Proof.
  destruct v as [| |b|n|s|l].
  1-5: rewrite reify_primitive by done; intros [= <-]; auto.
  intros Hr. destruct (reify_ref_inv _ _ _ _ Hr)
    as (fuel0 & _ & [(? & ? & _ & -> & _)|(? & ? & _ & ->)]); done.
Qed.

(** The first [return] of [zodToMcpSchema] on the heap. *)
Lemma wrapper_allocated fuel h0 v jsonSchema :
  ByReference.reify fuel h0 v = Some jsonSchema ->
  exists l more,
    (properties ← ByReference.allocate (ByReference.HRecord [("value", v)]);
     required ← ByReference.allocate
                  (ByReference.HArray [ByReference.HStr "value"]);
     ByReference.allocate
       (ByReference.HRecord [("type", ByReference.HStr "object");
                             ("properties", properties);
                             ("required", required)])) h0
    = (Normal (ByReference.HRef l), (h0 ++ more)%list)
    /\ h0 !! l = None
    /\ exists fuel',
         ByReference.reify fuel' (h0 ++ more)%list (ByReference.HRef l)
         = Some (JObj [("type", JStr "object");
                       ("properties", JObj [("value", jsonSchema)]);
                       ("required", JArr [JStr "value"])]).
Proof.
  intros Hv. se_unfold. unfold ByReference.allocate. simpl.
  eexists _, [_; _; _]. split; [|split].
  - rewrite <- !app_assoc. simpl. reflexivity.
  - apply lookup_ge_None_2. rewrite !length_app. simpl. lia.
  - exists (S (S fuel)).
    set (h1 := (h0 ++ _)%list).
    assert (Hvalue : ByReference.reify fuel h1 v = Some jsonSchema).
    { by apply (reify_mono fuel). }
    assert (H0 : h1 !! List.length h0
                 = Some (ByReference.HRecord [("value", v)])).
    { unfold h1. by rewrite lookup_app_r, Nat.sub_diag by lia. }
    assert (H1 : h1 !! List.length (h0 ++ [ByReference.HRecord [("value", v)]])%list
                 = Some (ByReference.HArray [ByReference.HStr "value"])).
    { unfold h1. rewrite lookup_app_r by (rewrite length_app; lia).
      rewrite length_app. simpl.
      by replace (List.length h0 + 1 - List.length h0) with 1 by lia. }
    eapply reify_record.
    + unfold h1. rewrite lookup_app_r by (rewrite length_app; lia).
      rewrite length_app. simpl.
      by replace (List.length h0 + 2 - List.length h0) with 2 by lia.
    + repeat constructor; simpl.
      * eapply reify_record; [exact H0|]. by repeat constructor.
      * eapply reify_array; [exact H1|]. repeat constructor.
        by destruct fuel.
Qed.

Lemma lookup_length_snoc {A} (h : list A) (o : A) :
  (h ++ [o])%list !! List.length h = Some o.
Proof. by rewrite lookup_app_r, Nat.sub_diag by lia. Qed.

(** The outer literal of both [return] statements. *)
Lemma outer_allocated fuel (h : list ByReference.HObject)
    properties required tree_p tree_r :
  ByReference.reify fuel h properties = Some tree_p ->
  ByReference.reify fuel h required = Some tree_r ->
  ByReference.reify (S fuel)
    (h ++ [ByReference.HRecord [("type", ByReference.HStr "object");
                                ("properties", properties);
                                ("required", required)]])%list
    (ByReference.HRef (List.length h))
  = Some (JObj [("type", JStr "object"); ("properties", tree_p);
                ("required", tree_r)]).
Proof.
  intros Hp Hr. eapply reify_record; [apply lookup_length_snoc|].
  repeat constructor; simpl.
  - by destruct fuel.
  - by apply (reify_mono fuel).
  - by apply (reify_mono fuel).
Qed.

(** The second [return] of [zodToMcpSchema] on the heap. *)
Lemma members_passed_through fuel h0 l0 props members :
  h0 !! l0 = Some (ByReference.HRecord props) ->
  Forall2 (fun p q => p.1 = q.1 /\ ByReference.reify fuel h0 p.2 = Some q.2)
    props members ->
  exists l more,
    (found ← ByReference.Get (ByReference.HRef l0) "properties";
     properties ← match found with
                  | ByReference.HUndefined | ByReference.HNull =>
                      ByReference.allocate (ByReference.HRecord [])
                  | _ => mret found
                  end;
     required ← ByReference.Get (ByReference.HRef l0) "required";
     ByReference.allocate
       (ByReference.HRecord [("type", ByReference.HStr "object");
                             ("properties", properties);
                             ("required", required)])) h0
    = (Normal (ByReference.HRef l), (h0 ++ more)%list)
    /\ h0 !! l = None
    /\ exists fuel',
         ByReference.reify fuel' (h0 ++ more)%list (ByReference.HRef l)
         = Some (JObj [("type", JStr "object");
                       ("properties",
                         nullish_coalesce
                           (default JUndefined (own_property "properties" members))
                           (JObj []));
                       ("required",
                         default JUndefined (own_property "required" members))]).
Proof.
  intros Hl0 Hall.
  pose proof (reify_member _ _ _ _ "properties" Hall) as Hfound.
  pose proof (reify_member _ _ _ _ "required" Hall) as Hrequired.
  pose proof (reify_nullish _ _ _ _ Hfound) as Hnullish.
  se_unfold. unfold ByReference.Get, ByReference.allocate. simpl. rewrite Hl0.
  set (found := default ByReference.HUndefined (own_property "properties" props))
    in *.
  set (required := default ByReference.HUndefined (own_property "required" props))
    in *.
  assert (Hfresh : exists fuel',
    ByReference.reify fuel'
      ((h0 ++ [ByReference.HRecord []]) ++
       [ByReference.HRecord [("type", ByReference.HStr "object");
                             ("properties", ByReference.HRef (List.length h0));
                             ("required", required)]])%list
      (ByReference.HRef (List.length (h0 ++ [ByReference.HRecord []])%list))
    = Some (JObj [("type", JStr "object"); ("properties", JObj []);
                  ("required",
                    default JUndefined (own_property "required" members))])).
  { exists (S (S fuel)). apply outer_allocated.
    - eapply reify_record; [apply lookup_length_snoc|constructor].
    - apply (reify_mono fuel); [done|lia]. }
  assert (Hsame : exists fuel',
    ByReference.reify fuel'
      (h0 ++
       [ByReference.HRecord [("type", ByReference.HStr "object");
                             ("properties", found);
                             ("required", required)]])%list
      (ByReference.HRef (List.length h0))
    = Some (JObj [("type", JStr "object");
                  ("properties",
                    default JUndefined (own_property "properties" members));
                  ("required",
                    default JUndefined (own_property "required" members))])).
  { exists (S fuel). by apply outer_allocated. }
  destruct Hfresh as [fuel1 Hfresh]. destruct Hsame as [fuel2 Hsame].
  destruct found as [| |b|n|s|l1]; simpl;
    try rewrite (lookup_app_l_Some _ _ _ _ Hl0); try rewrite Hl0.
  1,2: eexists (List.length (h0 ++ [ByReference.HRecord []])%list),
         [ByReference.HRecord []; _];
       (split; [by rewrite <- app_assoc|]);
       (split; [apply lookup_ge_None_2; rewrite length_app; lia|]);
       exists fuel1; rewrite <- app_assoc in Hfresh;
       by destruct Hnullish as [-> | ->].
  all: eexists (List.length h0), [_];
       (split; [reflexivity|]);
       (split; [by apply lookup_ge_None_2|]);
       exists fuel2; by rewrite Hnullish.
Qed.

Section Refinement.
Context {W : Type}.
Variable library_h : nat -> SE ByReference.Heap ByReference.HValue.
Variable library : ZodType W -> SE W JsValue.

(** [zodToMcpSchema] on the heap does what [zodToMcpSchema] on trees does:
    when the library's result denotes the tree [jsonSchema], the result is a
    new object that denotes the tree built from [jsonSchema], and the
    objects there were are left as they are. *)
Lemma zodToMcpSchema_refines
    (location : nat) (schema : ZodType W) (h h0 : ByReference.Heap) (w w' : W)
    (v : ByReference.HValue) (fuel : nat) (jsonSchema : JsValue) :
  library_h location h = (Normal v, h0) ->
  ByReference.reify fuel h0 v = Some jsonSchema ->
  library schema w = (Normal jsonSchema, w') ->
  jsonSchema <> JNull ->
  exists l more output,
    ByReference.zodToMcpSchema library_h location h
      = (Normal (ByReference.HRef l), (h0 ++ more)%list)
    /\ h0 !! l = None
    /\ zodToMcpSchema library schema w = (Normal output, w')
    /\ exists fuel',
         ByReference.reify fuel' (h0 ++ more)%list (ByReference.HRef l)
         = Some output.
Proof.
  intros Hh Hv Hw Hnull.
  assert (Hwrap : forall tree,
    ByReference.reify fuel h0 v = Some tree ->
    exists l more,
      (properties ← ByReference.allocate (ByReference.HRecord [("value", v)]);
       required ← ByReference.allocate
                    (ByReference.HArray [ByReference.HStr "value"]);
       ByReference.allocate
         (ByReference.HRecord [("type", ByReference.HStr "object");
                               ("properties", properties);
                               ("required", required)])) h0
      = (Normal (ByReference.HRef l), (h0 ++ more)%list)
      /\ h0 !! l = None
      /\ exists fuel',
           ByReference.reify fuel' (h0 ++ more)%list (ByReference.HRef l)
           = Some (JObj [("type", JStr "object");
                         ("properties", JObj [("value", tree)]);
                         ("required", JArr [JStr "value"])])).
  { intros tree. apply wrapper_allocated. }
  destruct v as [| |b|n|s|l0].
  1-5: pose proof Hv as Hv'; rewrite reify_primitive in Hv' by done;
       injection Hv' as <-; try done;
       destruct (Hwrap _ Hv) as (l & more & Hrun & Hnone & Hreify);
       exists l, more; eexists;
       (split; [unfold ByReference.zodToMcpSchema; se_unfold; rewrite Hh;
                simpl; se_unfold; exact Hrun|]);
       (split; [done|]);
       (split; [unfold zodToMcpSchema; se_unfold; rewrite Hw; reflexivity|]);
       exact Hreify.
  destruct (reify_ref_inv _ _ _ _ Hv)
    as (fuel0 & -> & [(props & members & Hl0 & -> & Hall)
                     |(items & elements & Hl0 & ->)]).
  - pose proof (reify_member _ _ _ _ "type" Hall) as Htype.
    apply reify_is_object_tag in Htype.
    destruct (is_object_tag (default JUndefined (own_property "type" members)))
      eqn:Htag.
    + destruct (members_passed_through _ _ _ _ _ Hl0 Hall)
        as (l & more & Hrun & Hnone & Hreify).
      exists l, more. eexists.
      split; [|split; [done|split; [|exact Hreify]]].
      * unfold ByReference.zodToMcpSchema. se_unfold. rewrite Hh.
        unfold ByReference.not_object_schema. se_unfold.
        unfold ByReference.Get at 1. simpl. rewrite Hl0, Htype. simpl.
        exact Hrun.
      * unfold zodToMcpSchema. se_unfold. rewrite Hw.
        unfold not_object_schema. simpl. by rewrite Htag.
    + destruct (Hwrap _ Hv) as (l & more & Hrun & Hnone & Hreify).
      exists l, more. eexists.
      split; [|split; [done|split; [|exact Hreify]]].
      * unfold ByReference.zodToMcpSchema. se_unfold. rewrite Hh.
        unfold ByReference.not_object_schema. se_unfold.
        unfold ByReference.Get at 1. simpl. rewrite Hl0, Htype. simpl.
        exact Hrun.
      * unfold zodToMcpSchema. se_unfold. rewrite Hw.
        unfold not_object_schema. simpl. by rewrite Htag.
  - destruct (Hwrap _ Hv) as (l & more & Hrun & Hnone & Hreify).
    exists l, more. eexists.
    split; [|split; [done|split; [|exact Hreify]]].
    + unfold ByReference.zodToMcpSchema. se_unfold. rewrite Hh.
      unfold ByReference.not_object_schema. se_unfold.
      unfold ByReference.Get at 1. simpl. rewrite Hl0. simpl.
      exact Hrun.
    + unfold zodToMcpSchema. se_unfold. by rewrite Hw.
Qed.
End Refinement.

(** The translator over the library of the specification returns, and what
    it returns depends on nothing but what the schema declares. *)
Lemma zodToMcpSchema_spec_returns {W : Type} (schema : ZodType W) (w : W) :
  zodToMcpSchema zodToJsonSchema_spec schema w
  = ((zodToMcpSchema zodToJsonSchema_spec
        {| def := def schema;
           safeParse := fun _ => mret (SafeParseSuccess JUndefined) |} ()).1, w)
  /\ exists output,
       zodToMcpSchema zodToJsonSchema_spec schema w = (Normal output, w).
Proof.
  unfold zodToMcpSchema, zodToJsonSchema_spec. se_unfold. simpl.
  destruct (json_schema_of_is_object (def schema)) as [props ->]. simpl.
  destruct (negb _); simpl; split; eauto.
Qed.

(** C8. [zodToMcpSchema] is pure: called twice on the same schema object, it
    returns both times, each time a new object, and the two outputs denote
    the same tree (the one the translator on trees gives); no object that
    existed before a call is changed by it, the schema object among them. *)
Theorem zodToMcpSchema_pure
    (h : ByReference.Heap) (location : nat) (d : ZodDef) :
  h !! location = Some (ByReference.HZod d) ->
  exists l1 more1 l2 more2 output,
    ByReference.zodToMcpSchema ByReference.zodToJsonSchema_spec location h
      = (Normal (ByReference.HRef l1), (h ++ more1)%list)
    /\ ByReference.zodToMcpSchema ByReference.zodToJsonSchema_spec location
         (h ++ more1)%list
       = (Normal (ByReference.HRef l2), ((h ++ more1) ++ more2)%list)
    /\ (forall l o,
          h !! l = Some o ->
          (h ++ more1)%list !! l = Some o
          /\ ((h ++ more1) ++ more2)%list !! l = Some o)
    /\ ((h ++ more1) ++ more2)%list !! location = Some (ByReference.HZod d)
    /\ h !! l1 = None /\ (h ++ more1)%list !! l2 = None /\ l1 <> l2
    /\ (exists fuel,
          ByReference.reify fuel (h ++ more1)%list (ByReference.HRef l1)
            = Some output
          /\ ByReference.reify fuel ((h ++ more1) ++ more2)%list
               (ByReference.HRef l1) = Some output
          /\ ByReference.reify fuel ((h ++ more1) ++ more2)%list
               (ByReference.HRef l2) = Some output)
    /\ forall (W : Type) (validator : JsValue -> SE W SafeParseReturn) (w : W),
         zodToMcpSchema zodToJsonSchema_spec
           {| def := d; safeParse := validator |} w
         = (Normal output, w).
Proof.
  intros Hschema.
  set (schema := {| def := d;
                    safeParse := fun _ => mret (SafeParseSuccess JUndefined) |}
                 : ZodType unit).
  destruct (proj2 (zodToMcpSchema_spec_returns schema ())) as [output Houtput].
  assert (Hcall : forall h0 : ByReference.Heap,
    h0 !! location = Some (ByReference.HZod d) ->
    exists l more fuel,
      ByReference.zodToMcpSchema ByReference.zodToJsonSchema_spec location h0
        = (Normal (ByReference.HRef l), (h0 ++ more)%list)
      /\ h0 !! l = None
      /\ ByReference.reify fuel (h0 ++ more)%list (ByReference.HRef l)
         = Some output).
  { intros h0 Hl.
    destruct (store_tree_spec (json_schema_of d) h0) as [[more0 Hext] [fuel0 Hr]].
    destruct (ByReference.store_tree (json_schema_of d) h0) as [v h1] eqn:Hstore.
    simpl in *. subst h1.
    destruct (zodToMcpSchema_refines ByReference.zodToJsonSchema_spec
                zodToJsonSchema_spec location schema h0 (h0 ++ more0)%list
                () () v fuel0 (json_schema_of d))
      as (l & more & output' & Hrun & Hnone & Hshallow & fuel & Hreify).
    - unfold ByReference.zodToJsonSchema_spec. by rewrite Hl, Hstore.
    - done.
    - done.
    - by destruct (json_schema_of_is_object d) as [props ->].
    - rewrite Houtput in Hshallow. injection Hshallow as <-.
      exists l, (more0 ++ more)%list, fuel. rewrite app_assoc.
      split; [done|]. split; [|done].
      apply lookup_ge_None_2. apply lookup_ge_None_1 in Hnone.
      rewrite length_app in Hnone. lia. }
  destruct (Hcall h Hschema) as (l1 & more1 & fuel1 & Hrun1 & Hnone1 & Hreify1).
  destruct (Hcall (h ++ more1)%list (lookup_app_l_Some _ _ _ _ Hschema))
    as (l2 & more2 & fuel2 & Hrun2 & Hnone2 & Hreify2).
  exists l1, more1, l2, more2, output.
  split; [done|]. split; [done|]. split.
  { intros l o Hl. split; [by apply lookup_app_l_Some|].
    by do 2 apply lookup_app_l_Some. }
  split; [by do 2 apply lookup_app_l_Some|].
  split; [done|]. split; [done|]. split.
  { intros ->.
    destruct (reify_ref_inv _ _ _ _ Hreify1)
      as (fuel0 & _ & [(? & ? & Hl & _)|(? & ? & Hl & _)]);
      by rewrite Hnone2 in Hl. }
  split.
  - exists (fuel1 `max` fuel2). split; [|split].
    + rewrite <- (app_nil_r (h ++ more1)%list).
      apply (reify_mono fuel1); [done|lia].
    + apply (reify_mono fuel1); [done|lia].
    + rewrite <- (app_nil_r ((h ++ more1) ++ more2)%list).
      apply (reify_mono fuel2); [done|lia].
  - intros W validator w.
    destruct (zodToMcpSchema_spec_returns
                {| def := d; safeParse := validator |} w) as [-> _].
    simpl. fold schema. by rewrite Houtput.
Qed.

(** ** The client *)

Lemma settle_pending p outcome (heap : list PromiseState) :
  heap !! p = Some Pending -> settle p outcome heap !! p = Some outcome.
Proof.
  intros Hp. unfold settle. rewrite Hp.
  apply list_lookup_insert_eq. by eapply lookup_lt_Some.
Qed.

Lemma settle_other p q outcome (heap : list PromiseState) :
  p <> q -> settle p outcome heap !! q = heap !! q.
Proof.
  intros Hne. unfold settle.
  destruct (heap !! p) as [[]|]; try done. by apply list_lookup_insert_ne.
Qed.

Lemma settle_settled p outcome (heap : list PromiseState) :
  heap !! p <> Some Pending -> settle p outcome heap = heap.
Proof. intros Hp. unfold settle. by destruct (heap !! p) as [[]|]. Qed.

(** The loop of the ['exit'] handler: a promise of the list that is pending
    ends rejected, every other promise keeps its state. *)
Lemma reject_all_listed e (pendings : list PendingRequest) :
  forall (heap : list PromiseState) p,
    heap !! p = Some Pending -> p ∈ promise <$> pendings ->
    foldl (fun heap pending => reject pending e heap) heap pendings !! p
      = Some (Rejected e).
Proof.
  assert (Hkeep : forall (l : list PendingRequest) (heap : list PromiseState) p,
    heap !! p = Some (Rejected e) ->
    foldl (fun heap pending => reject pending e heap) heap l !! p
      = Some (Rejected e)).
  { induction l as [|pending l IH]; [done|]. intros heap p Hp. simpl.
    apply IH. unfold reject.
    destruct (decide (promise pending = p)) as [->|Hne].
    - rewrite settle_settled; [done|]. by rewrite Hp.
    - by rewrite settle_other. }
  induction pendings as [|pending pendings IH]; intros heap p Hp Hin.
  - by apply elem_of_nil in Hin.
  - simpl. rewrite fmap_cons in Hin.
    destruct (decide (promise pending = p)) as [<-|Hne].
    + apply Hkeep. by apply settle_pending.
    + apply elem_of_cons in Hin as [?|Hin]; [done|].
      apply IH; [|done]. unfold reject. by rewrite settle_other.
Qed.

Lemma reject_all_other e (pendings : list PendingRequest) :
  forall (heap : list PromiseState) p,
    heap !! p <> Some Pending ->
    foldl (fun heap pending => reject pending e heap) heap pendings !! p
      = heap !! p.
Proof.
  induction pendings as [|pending pendings IH]; intros heap p Hp; [done|].
  simpl. unfold reject at 2.
  destruct (decide (promise pending = p)) as [->|Hne].
  - rewrite settle_settled by done. by apply IH.
  - rewrite IH; by rewrite settle_other.
Qed.

Lemma pending_listed (m : gmap Z PendingRequest) id pending :
  m !! id = Some pending -> promise pending ∈ promise <$> (map_to_list m).*2.
Proof.
  intros Hm. apply list_elem_of_fmap. exists pending. split; [done|].
  apply list_elem_of_fmap. exists (id, pending). split; [done|].
  by apply elem_of_map_to_list.
Qed.

Section ClientProperties.
Context `{NumberToString}.
Variable JSON_parse : string -> Completion JsValue.

Lemma spawned_inv : client_inv spawned.
Proof.
  unfold client_inv, spawned. simpl.
  repeat split; intros *; try (by rewrite lookup_empty); by rewrite lookup_nil.
Qed.

Lemma request_inv method params rt :
  client_inv rt -> client_inv (request method params rt).2.
Proof.
  intros (H1 & H2 & H3 & H4). unfold request.
  destruct (httpUrl (client rt)) as [url|]; simpl.
  { repeat split; simpl; eauto. intros id pending ?%H4. lia. }
  destruct (process (client rt)) as [child|]; simpl.
  2: { repeat split; simpl; eauto. intros id pending ?%H4. lia. }
  assert (Hfresh : pendingRequests (client rt) !! (requestId (client rt) + 1)%Z
                   = None).
  { destruct (_ !! _) as [pending|] eqn:Hp; [|done]. apply H4 in Hp. lia. }
  repeat split; simpl.
  - intros id pending [[<- <-]|[Hne Hp]]%lookup_insert_Some; simpl.
    + by rewrite lookup_app_r, Nat.sub_diag.
    + apply H1 in Hp. by rewrite lookup_app_l by (by eapply lookup_lt_Some).
  - intros p Hp. destruct (decide (p < length (promises rt))) as [Hlt|Hge].
    + rewrite lookup_app_l in Hp by done. apply H2 in Hp as [id Hid].
      exists id. rewrite lookup_insert_ne; [done|]. by intros <-; simplify_eq.
    + assert (p = length (promises rt)) as ->.
      { apply lookup_lt_Some in Hp. rewrite length_app in Hp. simpl in Hp. lia. }
      eexists. by rewrite lookup_insert_eq.
  - intros id1 id2 pending1 pending2
      [[<- <-]|[Hne1 Hp1]]%lookup_insert_Some
      [[<- <-]|[Hne2 Hp2]]%lookup_insert_Some; simpl; intros Heq; try done.
    + apply H1, lookup_lt_Some in Hp2. lia.
    + apply H1, lookup_lt_Some in Hp1. lia.
    + eauto.
  - intros id pending [[<- <-]|[Hne Hp]]%lookup_insert_Some; [lia|].
    apply H4 in Hp. lia.
Qed.

Lemma on_line_inv line rt :
  client_inv rt -> client_inv (on_line JSON_parse line rt).
Proof.
  intros Hinv. unfold on_line.
  destruct (blank line); [done|].
  destruct (JSON_parse line) as [response|]; [|done].
  destruct (Get response "id") as [id|]; [|done].
  destruct (pending_get _ id) as [pending|] eqn:Hget; [|done].
  destruct id as [| |b|n|s|items|props]; simplify_eq/=.
  destruct Hinv as (H1 & H2 & H3 & H4).
  pose proof (H1 _ _ Hget) as Hpending.
  repeat split; simpl.
  - intros id pending' [Hne Hp]%lookup_delete_Some.
    unfold resolve. rewrite settle_other; [by eapply H1|].
    intros Heq. apply Hne. by eapply H3.
  - intros p Hp. unfold resolve in Hp.
    destruct (decide (promise pending = p)) as [<-|Hne].
    { by rewrite settle_pending in Hp. }
    rewrite settle_other in Hp by done. apply H2 in Hp as [id Hid].
    exists id. apply lookup_delete_Some. split; [|done].
    intros <-. by simplify_eq.
  - intros id1 id2 pending1 pending2
      [_ Hp1]%lookup_delete_Some [_ Hp2]%lookup_delete_Some. eauto.
  - intros id pending' [_ Hp]%lookup_delete_Some. eauto.
Qed.

(** After the ['exit'] handler no promise is pending and the map is empty. *)
Lemma on_exit_settles rt :
  client_inv rt ->
  (forall id pending,
      pendingRequests (client rt) !! id = Some pending ->
      promises (on_exit rt) !! promise pending
        = Some (Rejected (Error "Process exited")))
  /\ pendingRequests (client (on_exit rt)) = ∅
  /\ (forall p, promises (on_exit rt) !! p <> Some Pending).
Proof.
  intros (H1 & H2 & H3 & H4). repeat split.
  - intros id pending Hp. unfold on_exit. simpl.
    apply reject_all_listed; [by eapply H1|by eapply pending_listed].
  - intros p Hp. unfold on_exit in Hp. simpl in Hp.
    destruct (promises rt !! p) as [[]|] eqn:Hbefore.
    + destruct (H2 _ Hbefore) as [id Hid].
      rewrite (reject_all_listed _ _ _ _ Hbefore) in Hp; [done|].
      by apply (pending_listed _ _ _ Hid).
    + rewrite reject_all_other in Hp by (by rewrite Hbefore). congruence.
    + rewrite reject_all_other in Hp by (by rewrite Hbefore). congruence.
    + rewrite reject_all_other in Hp by (by rewrite Hbefore). congruence.
Qed.

Lemma on_exit_inv rt : client_inv rt -> client_inv (on_exit rt).
Proof.
  intros Hinv. destruct (on_exit_settles rt Hinv) as (_ & Hempty & Hnone).
  unfold client_inv. rewrite Hempty.
  repeat split; intros *; try (by rewrite lookup_empty).
  intros Hp. by apply Hnone in Hp.
Qed.

Lemma close_inv rt : client_inv rt -> client_inv (close rt).
Proof. intros Hinv. unfold close. by destruct (process (client rt)). Qed.

(** The invariant holds after every sequence of events. *)
Lemma client_run_inv (events : list ClientEvent) :
  client_inv (client_run JSON_parse events).
Proof.
  unfold client_run.
  induction events as [|ev events IH] using rev_ind; [apply spawned_inv|].
  rewrite foldl_app. simpl.
  destruct ev; simpl;
    auto using request_inv, on_line_inv, on_exit_inv, close_inv.
Qed.

(** C9. Whatever the client has done since [spawn], when the child process
    exits every request still in [pendingRequests] is rejected with
    [Error('Process exited')], the map is emptied, and no promise created by
    [request] is left pending. *)
Theorem exit_rejects_pending (events : list ClientEvent) :
  (forall id pending,
      pendingRequests (client (client_run JSON_parse events)) !! id
        = Some pending ->
      promises (on_exit (client_run JSON_parse events)) !! promise pending
        = Some (Rejected (Error "Process exited")))
  /\ pendingRequests (client (on_exit (client_run JSON_parse events))) = ∅
  /\ (forall p,
        promises (on_exit (client_run JSON_parse events)) !! p <> Some Pending).
Proof. apply on_exit_settles, client_run_inv. Qed.

(** C10. A response without error whose result has an empty [content] array
    makes [call] return the empty string: there is no first item, so the text
    defaults to the empty string, [JSON.parse] rejects it, and the [catch]
    returns the text. *)
Theorem call_empty_content (response error result : JsValue) (e : Thrown) :
  JSON_parse "" = Throw e ->
  Get response "error" = Normal error ->
  truthy error = false ->
  Get response "result" = Normal result ->
  Get result "content" = Normal (JArr []) ->
  call_resume JSON_parse response = Normal (JStr "")
  /\ call_outcome JSON_parse (Fulfilled response) = Some (Normal (JStr "")).
Proof.
  intros Hparse Herror Hfalsy Hresult Hcontent.
  assert (call_resume JSON_parse response = Normal (JStr "")) as Hcall.
  { unfold call_resume. rewrite Herror. simpl. rewrite Hfalsy, Hresult. simpl.
    rewrite Hcontent. simpl. by rewrite Hparse. }
  split; [done|]. simpl. by rewrite Hcall.
Qed.
End ClientProperties.

(** * The properties at concrete inputs *)

(** The end-to-end cases of the server's test suite. *)
Example greet_world :
  testServer testTools (tools_call (JNum 1) "greet" (JObj [("name", JStr "World")]))
  = (Normal {| res_jsonrpc := "2.0"; res_id := JNum 1;
               res_result := Some (JObj [("content",
                 JArr [JObj [("type", JStr "text");
                             ("text", JStr "Hello, World!")]])]);
               res_error := None |},
     {| store := (); invoked := [("greet", JObj [("name", JStr "World")])] |}).
Proof. reflexivity. Qed.

Example method_not_found :
  testServer testTools
    {| req_jsonrpc := "2.0"; req_id := JNum 1; req_method := "foo/bar";
       req_params := JUndefined |}
  = (Normal {| res_jsonrpc := "2.0"; res_id := JNum 1; res_result := None;
               res_error := Some {| code := -32601;
                                    message := "Method not found: foo/bar";
                                    data := None |} |},
     {| store := (); invoked := [] |}).
Proof. reflexivity. Qed.

Example unknown_tool_nonexistent :
  testServer testTools (tools_call (JNum 1) "nonexistent" (JObj []))
  = (Normal {| res_jsonrpc := "2.0"; res_id := JNum 1; res_result := None;
               res_error := Some {| code := -32602;
                                    message := "Unknown tool: nonexistent";
                                    data := None |} |},
     {| store := (); invoked := [] |}).
Proof. reflexivity. Qed.

Example missing_required_field :
  testServer testTools (tools_call (JStr "r1") "greet" (JObj []))
  = (Normal {| res_jsonrpc := "2.0"; res_id := JStr "r1"; res_result := None;
               res_error := Some {| code := -32602;
                                    message := "Invalid parameters";
                                    data := Some (field_report "name" "Required") |} |},
     {| store := (); invoked := [] |}).
Proof. reflexivity. Qed.

Example empty_registry_lists_no_tool :
  testServer []
    {| req_jsonrpc := "2.0"; req_id := JNum 3; req_method := "tools/list";
       req_params := JObj [] |}
  = (Normal {| res_jsonrpc := "2.0"; res_id := JNum 3;
               res_result := Some (JObj [("tools", JArr [])]);
               res_error := None |},
     {| store := (); invoked := [] |}).
Proof. reflexivity. Qed.

(** The exceptions of the [try] block that the [catch] block prints: a
    failed extraction of the parameters, an [Error] thrown by a tool, a
    missing member of an inherited name. *)
Example extraction_failure_is_internal_error :
  testServer testTools
    {| req_jsonrpc := "2.0"; req_id := JNum 7; req_method := "tools/call";
       req_params := JUndefined |}
  = (Normal {| res_jsonrpc := "2.0"; res_id := JNum 7; res_result := None;
               res_error := Some {| code := -32603; message := "Internal error";
                 data := Some (JStr
                   "Cannot destructure property 'name' of 'params' as it is undefined.") |} |},
     {| store := (); invoked := [] |}).
Proof.
  apply (proj1 (proj2
           (handleRequest_converts_printable zodToJsonSchema_spec
              JSON_stringify_pretty testServerInfo testTools
              {| req_jsonrpc := "2.0"; req_id := JNum 7;
                 req_method := "tools/call"; req_params := JUndefined |}
              {| store := (); invoked := [] |}))
           (Error "Cannot destructure property 'name' of 'params' as it is undefined."));
    reflexivity.
Qed.

Example tool_failure_is_internal_error :
  testServer testTools (tools_call (JNum 1) "error_tool" (JObj []))
  = (Normal {| res_jsonrpc := "2.0"; res_id := JNum 1; res_result := None;
               res_error := Some {| code := -32603; message := "Internal error";
                                    data := Some (JStr "Intentional error") |} |},
     {| store := (); invoked := [("error_tool", JObj [])] |}).
Proof.
  apply (proj2 (proj2
           (handleRequest_converts_printable zodToJsonSchema_spec
              JSON_stringify_pretty testServerInfo testTools
              (tools_call (JNum 1) "error_tool" (JObj []))
              {| store := (); invoked := [] |}))
           (JStr "error_tool") (JObj []) "error_tool" error_tool (JObj [])
           (Error "Intentional error") "Intentional error" () ()); reflexivity.
Qed.

(** A name that cannot be a property key is an exception of the [try] block
    like any other. *)
Example unconvertible_name_is_internal_error :
  testServer testTools
    {| req_jsonrpc := "2.0"; req_id := JNum 1; req_method := "tools/call";
       req_params := JObj [("name", JObj [("toString", JNum 1)])] |}
  = (Normal {| res_jsonrpc := "2.0"; res_id := JNum 1; res_result := None;
               res_error := Some {| code := -32603; message := "Internal error";
                 data := Some (JStr "Cannot convert object to primitive value") |} |},
     {| store := (); invoked := [] |}).
Proof. reflexivity. Qed.

(** C1. [handleRequest] does throw outward.  On the registry with a tool
    whose [execute] throws the object [{ toString: null }], a [tools/call]
    of that tool passes validation and runs the tool; its exception reaches
    the [catch] block, whose [String(error)] throws a TypeError, and that
    TypeError leaves [handleRequest]: no response is returned, where the
    claim has the response with code -32603. *)
Theorem unprintable_exception_escapes :
  execute opaque_tool (JObj []) ()
    = (Throw (NonError (JObj [("toString", JNull)])), ())
  /\ thrown_text (NonError (JObj [("toString", JNull)]))
     = Throw (Error "Cannot convert object to primitive value")
  /\ dispatch zodToJsonSchema_spec JSON_stringify_pretty testServerInfo
       [("opaque_tool", opaque_tool)] (JNum 1) "tools/call"
       (JObj [("name", JStr "opaque_tool"); ("arguments", JObj [])]) idle
     = (Throw (NonError (JObj [("toString", JNull)])),
        {| store := (); invoked := [("opaque_tool", JObj [])] |})
  /\ testServer [("opaque_tool", opaque_tool)]
       (tools_call (JNum 1) "opaque_tool" (JObj []))
     = (Throw (Error "Cannot convert object to primitive value"),
        {| store := (); invoked := [("opaque_tool", JObj [])] |}).
Proof. repeat split; reflexivity. Qed.

Lemma handleRequest_echoes_id_witness :
  res_id {| res_jsonrpc := "2.0"; res_id := JStr "r1"; res_result := None;
            res_error := Some {| code := -32602;
                                 message := "Invalid parameters";
                                 data := Some (field_report "name" "Required") |} |}
  = JStr "r1"
  /\ exists response st',
       testServer testTools (tools_call (JStr "r1") "greet" (JObj []))
         = (Normal response, st')
       /\ res_id response = JStr "r1".
Proof.
  split.
  - apply (proj1 (handleRequest_echoes_id zodToJsonSchema_spec
                    JSON_stringify_pretty testServerInfo testTools
                    (tools_call (JStr "r1") "greet" (JObj []))
                    {| store := (); invoked := [] |})
             _ {| store := (); invoked := [] |}).
    reflexivity.
  - apply (proj2 (handleRequest_echoes_id zodToJsonSchema_spec
                    JSON_stringify_pretty testServerInfo testTools
                    (tools_call (JStr "r1") "greet" (JObj []))
                    {| store := (); invoked := [] |})).
    intros e st'. vm_compute. discriminate.
Defined.

Lemma handleRequest_result_xor_error_witness :
  ((is_Some (Some (JObj [])) /\ @None JsonRpcError = None)
   \/ (Some (JObj []) = None /\ is_Some (@None JsonRpcError)))
  /\ exists response st',
       testServer testTools (tools_call (JNum 1) "error_tool" (JObj []))
         = (Normal response, st')
       /\ ((is_Some (res_result response) /\ res_error response = None)
           \/ (res_result response = None /\ is_Some (res_error response))).
Proof.
  split.
  - apply (proj1 (handleRequest_result_xor_error zodToJsonSchema_spec
                    JSON_stringify_pretty testServerInfo testTools
                    {| req_jsonrpc := "2.0"; req_id := JNum 4; req_method := "ping";
                       req_params := JUndefined |}
                    {| store := (); invoked := [] |})
             {| res_jsonrpc := "2.0"; res_id := JNum 4;
                res_result := Some (JObj []); res_error := None |}
             {| store := (); invoked := [] |}).
    reflexivity.
  - apply (proj2 (handleRequest_result_xor_error zodToJsonSchema_spec
                    JSON_stringify_pretty testServerInfo testTools
                    (tools_call (JNum 1) "error_tool" (JObj []))
                    {| store := (); invoked := [] |})).
    intros e st'. vm_compute. intros [= <- <-]. by exists "Intentional error".
Defined.

Lemma invalid_parameters_response_witness :
  testServer testTools (tools_call (JNum 1) "greet" (JObj [("name", JNum 123)]))
  = (Normal {| res_jsonrpc := "2.0"; res_id := JNum 1; res_result := None;
               res_error := Some {| code := -32602;
                                    message := "Invalid parameters";
                                    data := Some (field_report "name"
                                              "Expected string, received number") |} |},
     {| store := (); invoked := [] |}).
Proof.
  apply (invalid_parameters_response zodToJsonSchema_spec JSON_stringify_pretty
           testServerInfo testTools
           (tools_call (JNum 1) "greet" (JObj [("name", JNum 123)]))
           {| store := (); invoked := [] |}
           (JStr "greet") (JObj [("name", JNum 123)]) "greet" greet
           {| format := field_report "name" "Expected string, received number" |}
           ()); reflexivity.
Defined.

(** C4. [toString] is not a tool of the test registry, yet a [tools/call]
    naming it is answered with code -32603 and message [Internal error],
    not with code -32602 and [Unknown tool: toString]: [tools['toString']] is
    the function every object inherits, so the [!toolDef] test does not
    fire. *)
Theorem inherited_name_is_not_unknown :
  own_property "toString" testTools = None
  /\ testServer testTools (tools_call (JNum 1) "toString" (JObj []))
     = (Normal {| res_jsonrpc := "2.0"; res_id := JNum 1; res_result := None;
                  res_error := Some {| code := -32603; message := "Internal error";
                    data := Some (JStr
                      "Cannot read properties of undefined (reading 'safeParse')") |} |},
        {| store := (); invoked := [] |}).
Proof. split; reflexivity. Qed.

Lemma zodToMcpSchema_wraps_non_object_witness :
  zodToMcpSchema zodToJsonSchema_spec (string_schema (W := unit)) ()
  = (Normal (JObj [("type", JStr "object");
                   ("properties", JObj [("value", JObj [("type", JStr "string")])]);
                   ("required", JArr [JStr "value"])]),
     ()).
Proof.
  apply (zodToMcpSchema_wraps_non_object zodToJsonSchema_spec string_schema () ()
           (JObj [("type", JStr "string")])).
  - reflexivity.
  - discriminate.
  - intros (props & Heq & Htype). injection Heq as <-. discriminate Htype.
Defined.

Lemma object_schema_requiredness_witness :
  exists properties required,
    zodToMcpSchema zodToJsonSchema_spec (weather_schema (W := unit)) () =
      (Normal (JObj [("type", JStr "object");
                     ("properties", JObj properties);
                     ("required", required)]), ())
    /\ (forall field d,
          (field, d) ∈ weather_shape -> has_default d = true ->
          is_Some (own_property field properties)
          /\ JStr field ∉ required_entries required)
    /\ (forall field d,
          (field, d) ∈ weather_shape ->
          has_default d = false -> optional_marking d = false ->
          is_Some (own_property field properties)
          /\ JStr field ∈ required_entries required)
    /\ (weather_shape = [] -> properties = [] /\ required_entries required = []).
Proof.
  apply (object_schema_requiredness weather_schema weather_shape ()).
  - reflexivity.
  - apply (bool_decide_unpack _). vm_compute. exact I.
Defined.

(** The translator on the heap that holds the schema [z.string()] and
    nothing else: the library's object, then the three literals of the
    wrapper. *)
Example string_schema_by_reference :
  ByReference.zodToMcpSchema ByReference.zodToJsonSchema_spec 0
    [ByReference.HZod (ZString None None)]
  = (Normal (ByReference.HRef 4),
     [ByReference.HZod (ZString None None);
      ByReference.HRecord [("type", ByReference.HStr "string")];
      ByReference.HRecord [("value", ByReference.HRef 1)];
      ByReference.HArray [ByReference.HStr "value"];
      ByReference.HRecord [("type", ByReference.HStr "object");
                           ("properties", ByReference.HRef 2);
                           ("required", ByReference.HRef 3)]])
  /\ ByReference.reify 3
       (ByReference.zodToMcpSchema ByReference.zodToJsonSchema_spec 0
          [ByReference.HZod (ZString None None)]).2
       (ByReference.HRef 4)
     = Some (JObj [("type", JStr "object");
                   ("properties", JObj [("value", JObj [("type", JStr "string")])]);
                   ("required", JArr [JStr "value"])]).
Proof. split; reflexivity. Qed.

(** An object schema without fields: the library's [properties] object is
    the one the output refers to, and [required] is absent. *)
Example empty_object_schema_by_reference :
  ByReference.zodToMcpSchema ByReference.zodToJsonSchema_spec 0
    [ByReference.HZod (ZObject [])]
  = (Normal (ByReference.HRef 3),
     [ByReference.HZod (ZObject []);
      ByReference.HRecord [];
      ByReference.HRecord [("type", ByReference.HStr "object");
                           ("properties", ByReference.HRef 1)];
      ByReference.HRecord [("type", ByReference.HStr "object");
                           ("properties", ByReference.HRef 1);
                           ("required", ByReference.HUndefined)]]).
Proof. reflexivity. Qed.

Lemma zodToMcpSchema_pure_witness :
  exists l1 more1 l2 more2 output,
    ByReference.zodToMcpSchema ByReference.zodToJsonSchema_spec 0
      [ByReference.HZod (ZObject weather_shape)]
      = (Normal (ByReference.HRef l1),
         ([ByReference.HZod (ZObject weather_shape)] ++ more1)%list)
    /\ ByReference.zodToMcpSchema ByReference.zodToJsonSchema_spec 0
         ([ByReference.HZod (ZObject weather_shape)] ++ more1)%list
       = (Normal (ByReference.HRef l2),
          (([ByReference.HZod (ZObject weather_shape)] ++ more1) ++ more2)%list)
    /\ (forall l o,
          [ByReference.HZod (ZObject weather_shape)] !! l = Some o ->
          ([ByReference.HZod (ZObject weather_shape)] ++ more1)%list !! l = Some o
          /\ (([ByReference.HZod (ZObject weather_shape)] ++ more1) ++ more2)%list
             !! l = Some o)
    /\ (([ByReference.HZod (ZObject weather_shape)] ++ more1) ++ more2)%list !! 0
       = Some (ByReference.HZod (ZObject weather_shape))
    /\ [ByReference.HZod (ZObject weather_shape)] !! l1 = None
    /\ ([ByReference.HZod (ZObject weather_shape)] ++ more1)%list !! l2 = None
    /\ l1 <> l2
    /\ (exists fuel,
          ByReference.reify fuel
            ([ByReference.HZod (ZObject weather_shape)] ++ more1)%list
            (ByReference.HRef l1) = Some output
          /\ ByReference.reify fuel
               (([ByReference.HZod (ZObject weather_shape)] ++ more1) ++ more2)%list
               (ByReference.HRef l1) = Some output
          /\ ByReference.reify fuel
               (([ByReference.HZod (ZObject weather_shape)] ++ more1) ++ more2)%list
               (ByReference.HRef l2) = Some output)
    /\ forall (W : Type) (validator : JsValue -> SE W SafeParseReturn) (w : W),
         zodToMcpSchema zodToJsonSchema_spec
           {| def := ZObject weather_shape; safeParse := validator |} w
         = (Normal output, w).
Proof.
  apply (zodToMcpSchema_pure [ByReference.HZod (ZObject weather_shape)] 0
           (ZObject weather_shape)).
  reflexivity.
Defined.

Lemma exit_rejects_pending_witness :
  pendingRequests (client (client_run parse_literal two_requests)) !! 2%Z
    = Some {| promise := 1 |}
  /\ promises (on_exit (client_run parse_literal two_requests)) !! 1
     = Some (Rejected (Error "Process exited")).
Proof.
  assert (H : pendingRequests (client (client_run parse_literal two_requests)) !! 2%Z
              = Some {| promise := 1 |}) by (vm_compute; reflexivity).
  split; [exact H|].
  exact (proj1 (exit_rejects_pending parse_literal two_requests)
           2%Z {| promise := 1 |} H).
Defined.

Lemma call_empty_content_witness :
  call_resume parse_literal empty_content_response = Normal (JStr "")
  /\ call_outcome parse_literal (Fulfilled empty_content_response)
     = Some (Normal (JStr "")).
Proof.
  apply (call_empty_content parse_literal empty_content_response
           JUndefined (JObj [("content", JArr [])])
           (Error "Unexpected end of JSON input")); reflexivity.
Defined.

(** * Further properties of the dispatcher *)

Section DispatcherFacts.
Context {W : Type} `{NumberToString}.
Variable zodToJsonSchema : ZodType W -> SE W JsValue.
Variable JSON_stringify : JsValue -> Completion JsValue.
Variable serverInfo : McpServerInfo.
Variable tools : ToolRegistry W.

Local Abbreviation dispatch :=
  (dispatch zodToJsonSchema JSON_stringify serverInfo tools).
Local Abbreviation handleRequest :=
  (handleRequest zodToJsonSchema JSON_stringify serverInfo tools).

(** X1. A method outside the five of the [switch] is answered with code -32601
    and the method's name, and nothing else happens. *)
Theorem unknown_method_response (request : JsonRpcRequest) (st : Machine) :
  req_method request ∉ known_methods ->
  handleRequest request st =
    (Normal {| res_jsonrpc := "2.0";
               res_id := req_id request;
               res_result := None;
               res_error := Some {| code := -32601;
                                    message := "Method not found: "
                                               +:+ req_method request;
                                    data := None |} |},
     st).
Proof.
  intros Hm. unfold_handleRequest. unfold_dispatch. se_unfold.
  repeat (case_bool_decide as Heq;
          [exfalso; apply Hm; rewrite Heq; unfold known_methods; set_solver
          |clear Heq]).
  done.
Qed.

(** X2. Only [tools/call] reads [params]: for every other method the outcome is
    the same whatever the request carries there. *)
Theorem params_read_only_by_tools_call
    (request : JsonRpcRequest) (params' : JsValue) (st : Machine) :
  req_method request <> "tools/call" ->
  handleRequest request st =
  handleRequest {| req_jsonrpc := req_jsonrpc request;
                   req_id := req_id request;
                   req_method := req_method request;
                   req_params := params' |} st.
Proof.
  intros Hm. unfold_handleRequest. unfold_dispatch. simpl.
  repeat (case_bool_decide; [done|]). done.
Qed.

(** X3. Every error the dispatcher reports has one of three codes: -32601 only
    for a method outside the [switch], -32602 and -32603 only for
    [tools/call] and [tools/list]. *)
Theorem handleRequest_error_codes
    (request : JsonRpcRequest) (st st' : Machine)
    (response : JsonRpcResponse) (e : JsonRpcError) :
  handleRequest request st = (Normal response, st') ->
  res_error response = Some e ->
  (code e = -32601 /\ req_method request ∉ known_methods)%Z
  \/ (code e = -32602 /\ req_method request = "tools/call")%Z
  \/ (code e = -32603
      /\ (req_method request = "tools/call" \/ req_method request = "tools/list"))%Z.
Proof.
  unfold_handleRequest. unfold_dispatch. se_unfold.
  intros Hrun Herr.
  repeat case_bool_decide;
    repeat (case_match; simplify_eq/=); simplify_eq/=; auto.
  left. split; [done|]. unfold known_methods. intros Hin.
  repeat (apply elem_of_cons in Hin as [?|Hin]; [done|]).
  by apply elem_of_nil in Hin.
Qed.

(** X4. A request runs at most one tool, the one it names, and only on the data
    that tool's own schema has validated. *)
Theorem execute_only_after_validation
    (request : JsonRpcRequest) (st st' : Machine)
    (c : Completion JsonRpcResponse) :
  handleRequest request st = (c, st') ->
  invoked st' = invoked st
  \/ exists toolName args key toolDef input w,
       req_method request = "tools/call"
       /\ destructure_params (req_params request) = Normal (toolName, args)
       /\ ToString toolName = Normal key
       /\ own_property key tools = Some toolDef
       /\ safeParse (parameters toolDef) (nullish_coalesce args (JObj []))
            (store st) = (Normal (SafeParseSuccess input), w)
       /\ invoked st' = (invoked st ++ [(key, input)])%list.
Proof.
  unfold_handleRequest. unfold_dispatch. se_unfold. intros Hrun.
  repeat case_bool_decide;
    repeat (case_match; simplify_eq/=); simplify_eq/=; auto.
  all: right; do 6 eexists; repeat split; eauto.
Qed.

(** X5. A validated [tools/call] whose tool returns a string answers with that
    string as the text of its single content item; any other result is
    rendered by [JSON.stringify]. *)
Theorem tool_result_rendering
    (request : JsonRpcRequest) (st : Machine)
    (toolName args : JsValue) (key : string) (toolDef : ToolDefinition W)
    (input result : JsValue) (w1 w2 : W) :
  req_method request = "tools/call" ->
  destructure_params (req_params request) = Normal (toolName, args) ->
  ToString toolName = Normal key ->
  own_property key tools = Some toolDef ->
  safeParse (parameters toolDef) (nullish_coalesce args (JObj [])) (store st)
    = (Normal (SafeParseSuccess input), w1) ->
  execute toolDef input w1 = (Normal result, w2) ->
  forall text,
    (if bool_decide (typeof result = "string") then Normal result
     else JSON_stringify result) = Normal text ->
    handleRequest request st =
      (Normal {| res_jsonrpc := "2.0";
                 res_id := req_id request;
                 res_result :=
                   Some (JObj [("content",
                           JArr [JObj [("type", JStr "text"); ("text", text)]])]);
                 res_error := None |},
       {| store := w2;
          invoked := invoked st ++ [(key, input)] |}).
Proof.
  intros Hm Hp Hkey Hown Hparse Hexec text Htext.
  rewrite handleRequest_unfold, Hm.
  rewrite (dispatch_own_tool _ _ _ _ _ _ _ _ _ _ _ Hp Hkey Hown), Hparse, Hexec.
  simpl. by rewrite Htext.
Qed.
End DispatcherFacts.

(** * Further properties of the translator and of discovery *)

Lemma se_map_Forall2 {S A B} (f : A -> SE S B) (R : A -> B -> Prop) (l : list A) :
  (forall x s, exists y s', f x s = (Normal y, s') /\ R x y) ->
  forall s, exists ys s', se_map f l s = (Normal ys, s') /\ Forall2 R l ys.
Proof.
  intros Hf. induction l as [|x l IH]; intros s; simpl.
  - exists [], s. split; [done|constructor].
  - se_unfold. destruct (Hf x s) as (y & s1 & -> & Hy).
    destruct (IH s1) as (ys & s2 & -> & Hys).
    exists (y :: ys), s2. split; [done|by constructor].
Qed.

Lemma se_map_throws {S A B} (f : A -> SE S B) (l : list A) (x : A) :
  x ∈ l ->
  (forall s, exists e s', f x s = (Throw e, s')) ->
  forall s, exists e s', se_map f l s = (Throw e, s').
Proof.
  intros Hin Hx. induction l as [|y l IH]; intros s.
  - by apply elem_of_nil in Hin.
  - simpl. se_unfold. apply elem_of_cons in Hin as [<-|Hin].
    + destruct (Hx s) as (e & s' & ->). eauto.
    + destruct (f y s) as [[b|e] s1]; [|eauto].
      destruct (IH Hin s1) as (e & s2 & ->). eauto.
Qed.

(** An exception of [se_map] is the exception of one of the calls. *)
Lemma se_map_throws_from {S A B} (f : A -> SE S B) (l : list A) s e s' :
  se_map f l s = (Throw e, s') ->
  exists x s0 s1, x ∈ l /\ f x s0 = (Throw e, s1).
Proof.
  revert s. induction l as [|y l IH]; intros s; simpl; se_unfold; [done|].
  destruct (f y s) as [[b|e0] s1] eqn:Hy.
  - destruct (se_map f l s1) as [[bs|e1] s2] eqn:Hl; [done|].
    intros [= <- <-]. destruct (IH _ Hl) as (x & s0 & s3 & Hin & Hx).
    exists x, s0, s3. split; [by apply elem_of_cons; right|done].
  - intros [= <- <-]. exists y, s, s1. split; [by apply elem_of_cons; left|done].
Qed.

Section DiscoveryFacts.
Context {W : Type} `{NumberToString}.
Variable zodToJsonSchema : ZodType W -> SE W JsValue.
Variable JSON_stringify : JsValue -> Completion JsValue.
Variable serverInfo : McpServerInfo.
Variable tools : ToolRegistry W.

Local Abbreviation handleRequest :=
  (handleRequest zodToJsonSchema JSON_stringify serverInfo tools).

(** X7. Whatever JSON schema the library returns, the input schema
    [zodToMcpSchema] builds from it is an object with [type] equal to
    [object], a [properties] member that is neither [undefined] nor [null],
    and a [required] member. *)
Theorem zodToMcpSchema_always_object
    (schema : ZodType W) (w w' : W) (jsonSchema : JsValue) :
  zodToJsonSchema schema w = (Normal jsonSchema, w') ->
  jsonSchema <> JNull ->
  exists properties required,
    zodToMcpSchema zodToJsonSchema schema w =
      (Normal (JObj [("type", JStr "object");
                     ("properties", properties);
                     ("required", required)]), w')
    /\ properties <> JUndefined /\ properties <> JNull.
Proof.
  intros Hlib Hnull. unfold zodToMcpSchema. se_unfold. rewrite Hlib.
  destruct (not_object_schema jsonSchema) as [[]|e] eqn:Hguard.
  - eexists _, _. by split.
  - destruct jsonSchema as [| |b|n|s|items|props]; try done; simpl.
    eexists _, _. split; [done|].
    by destruct (default JUndefined (own_property "properties" props)).
  - by destruct jsonSchema.
Qed.

(** X8. [tools/list] answers with one definition per registry entry, in the
    order of the registry, each carrying the entry's name and description
    and an object input schema; no tool is run.  (The library is assumed to
    return a JSON schema for every parameter schema.) *)
Theorem tools_list_enumerates_registry (request : JsonRpcRequest) (st : Machine) :
  (forall schema w, exists jsonSchema w',
      zodToJsonSchema schema w = (Normal jsonSchema, w') /\ jsonSchema <> JNull) ->
  req_method request = "tools/list" ->
  exists toolList st',
    handleRequest request st =
      (Normal {| res_jsonrpc := "2.0";
                 res_id := req_id request;
                 res_result := Some (JObj [("tools", JArr toolList)]);
                 res_error := None |}, st')
    /\ invoked st' = invoked st
    /\ length toolList = length tools
    /\ Forall2 (fun entry definition =>
                  exists inputSchema,
                    definition = JObj [("name", JStr entry.1);
                                       ("description", JStr (description entry.2));
                                       ("inputSchema", inputSchema)]
                    /\ Get inputSchema "type" = Normal (JStr "object"))
               tools toolList.
Proof.
  intros Hlib Hm.
  destruct (se_map_Forall2
              (fun entry => toolToMcpDefinition zodToJsonSchema entry.1 entry.2)
              (fun entry definition =>
                 exists inputSchema,
                   definition = JObj [("name", JStr entry.1);
                                      ("description", JStr (description entry.2));
                                      ("inputSchema", inputSchema)]
                   /\ Get inputSchema "type" = Normal (JStr "object"))
              tools) with (store st) as (toolList & w' & Hmap & Hall).
  { intros [toolName toolDef] w. simpl.
    destruct (Hlib (parameters toolDef) w) as (jsonSchema & w1 & Hjs & Hnull).
    destruct (zodToMcpSchema_always_object _ _ _ _ Hjs Hnull)
      as (properties & required & Hschema & _).
    unfold toolToMcpDefinition. se_unfold. rewrite Hschema.
    eexists _, _. split; [done|]. by eexists. }
  exists toolList, {| store := w'; invoked := invoked st |}.
  split; [|split; [done|split; [|done]]].
  - unfold_handleRequest. unfold_dispatch. se_unfold. rewrite Hm. simpl.
    by rewrite Hmap.
  - symmetry. by eapply Forall2_length.
Qed.

(** Whatever [zodToMcpSchema] throws is printable when what the library
    throws is: its own exception is the TypeError of reading [type] of
    [null]. *)
Lemma zodToMcpSchema_throws_printable (schema : ZodType W) (w w' : W) (e : Thrown) :
  (forall schema0 w0 e0 w0',
      zodToJsonSchema schema0 w0 = (Throw e0, w0') -> printable e0) ->
  zodToMcpSchema zodToJsonSchema schema w = (Throw e, w') -> printable e.
Proof.
  intros Hlib. unfold zodToMcpSchema. se_unfold.
  destruct (zodToJsonSchema schema w) as [[jsonSchema|e0] w0] eqn:Hjs.
  - destruct jsonSchema as [| |b|n|s|items|props]; simpl;
      try case_bool_decide; try done.
    + intros [= <- <-]. by eexists.
    + by destruct (negb _).
  - intros [= <- <-]. by eapply Hlib.
Qed.

(** X9. One parameter schema the library cannot translate makes the whole
    [tools/list] fail: the answer is the -32603 error, not the other
    tools.  (What the library throws is taken to be printable.) *)
Theorem tools_list_fails_as_a_whole
    (request : JsonRpcRequest) (st : Machine)
    (toolName : string) (toolDef : ToolDefinition W) :
  (forall schema w e w',
      zodToJsonSchema schema w = (Throw e, w') -> printable e) ->
  req_method request = "tools/list" ->
  (toolName, toolDef) ∈ tools ->
  (forall w, exists e w', zodToJsonSchema (parameters toolDef) w = (Throw e, w')) ->
  exists text st',
    handleRequest request st =
      (Normal {| res_jsonrpc := "2.0";
                 res_id := req_id request;
                 res_result := None;
                 res_error := Some {| code := -32603;
                                      message := "Internal error";
                                      data := Some (JStr text) |} |},
       st')
    /\ invoked st' = invoked st.
Proof.
  intros Hprint Hm Hin Hlib.
  destruct (se_map_throws
              (fun entry => toolToMcpDefinition zodToJsonSchema entry.1 entry.2)
              tools (toolName, toolDef) Hin) with (store st) as (e & w' & Hmap).
  { intros w. destruct (Hlib w) as (e & w' & He). simpl.
    unfold toolToMcpDefinition, zodToMcpSchema. se_unfold. rewrite He. eauto. }
  destruct (se_map_throws_from _ _ _ _ _ Hmap) as (entry & w0 & w1 & _ & He).
  assert (Hp : printable e).
  { unfold toolToMcpDefinition in He. se_unfold.
    destruct (zodToMcpSchema _ _ w0) as [[inputSchema|e0] w2] eqn:Hs; [done|].
    injection He as <- <-. by eapply zodToMcpSchema_throws_printable. }
  destruct Hp as [text Htext].
  exists text, {| store := w'; invoked := invoked st |}. split; [|done].
  unfold_handleRequest. unfold_dispatch. se_unfold. rewrite Hm. simpl.
  by rewrite Hmap, Htext.
Qed.
End DiscoveryFacts.

(** * Properties of the transports *)

Section HandlerFacts.
Context {W : Type} `{NumberToString}.
Variable zodToJsonSchema : ZodType W -> SE W JsValue.
Variable JSON_stringify : JsValue -> Completion JsValue.
Variable serverInfo : McpServerInfo.
Variable tools : ToolRegistry W.

Local Abbreviation dispatch :=
  (dispatch zodToJsonSchema JSON_stringify serverInfo tools).
Local Abbreviation handleRequest :=
  (handleRequest zodToJsonSchema JSON_stringify serverInfo tools).
Local Abbreviation serve_handler :=
  (handleRequest_untyped zodToJsonSchema JSON_stringify serverInfo tools).

Lemma Error_printable (message : string) : printable (Error message).
Proof. by exists message. Qed.



(** The branch of the handler for a [method] that is not a string. *)
Lemma default_of_any_method (id method : JsValue) (st : Machine (W := W)) :
  try_catch
    (name ← se_pure (ToString method);
     mret (failure id {| code := -32601;
                         message := "Method not found: " +:+ name;
                         data := None |}))
    (fun error =>
       text ← se_pure (thrown_text error);
       mret (failure id {| code := -32603;
                           message := "Internal error";
                           data := Some (JStr text) |})) st
  = (Normal
       match ToString method with
       | Normal name =>
           failure id {| code := -32601;
                         message := "Method not found: " +:+ name;
                         data := None |}
       | Throw _ =>
           internal_error id "Cannot convert object to primitive value"
       end, st).
Proof.
  se_unfold. destruct (ToString method) as [name|e] eqn:Hname; [done|].
  simpl. by rewrite (ToString_throws _ _ Hname).
Qed.

(** Every exception that leaves the handler is an [Error]: the TypeError of
    destructuring [null], or the one of the [catch] block's [String]. *)
Lemma handler_throws_printable (request : JsValue) (st st' : Machine) (e : Thrown) :
  serve_handler request st = (Throw e, st') -> printable e.
Proof.
  unfold handleRequest_untyped.
  assert (Hdefault : forall method : JsValue,
    try_catch
      (name ← se_pure (ToString method);
       mret (failure (own_member request "id")
               {| code := -32601;
                  message := "Method not found: " +:+ name;
                  data := None |}))
      (fun error =>
         text ← se_pure (thrown_text error);
         mret (failure (own_member request "id")
                 {| code := -32603;
                    message := "Internal error";
                    data := Some (JStr text) |})) st
    = (Throw e, st') -> printable e).
  { intros method. by rewrite default_of_any_method. }
  destruct request as [| |b|n|s|items|props];
    try (by apply Hdefault);
    try (se_unfold; intros [= <- <-]; apply Error_printable).
  destruct (own_member (JObj props) "method") as [| |b|n|method|items|props'];
    try (by apply Hdefault).
  intros Hr. rewrite (handleRequest_throws _ _ _ _ _ _ _ _ Hr).
  apply Error_printable.
Qed.



(** X11. A parsed value without a string [method] is answered inside the
    [try]: with [Method not found] followed by the text of whatever stands
    there, or, when that has no text, with the -32603 error of the TypeError
    the template literal throws.  Nothing else happens. *)
Theorem handler_method_must_be_string (request : JsValue) (st : Machine) :
  request <> JNull -> request <> JUndefined ->
  typeof (own_member request "method") <> "string" ->
  (forall text,
      ToString (own_member request "method") = Normal text ->
      serve_handler request st =
        (Normal {| res_jsonrpc := "2.0";
                   res_id := own_member request "id";
                   res_result := None;
                   res_error :=
                     Some {| code := -32601;
                             message := "Method not found: " +:+ text;
                             data := None |} |},
         st))
  /\ (forall e,
        ToString (own_member request "method") = Throw e ->
        serve_handler request st =
          (Normal {| res_jsonrpc := "2.0";
                     res_id := own_member request "id";
                     res_result := None;
                     res_error :=
                       Some {| code := -32603;
                               message := "Internal error";
                               data := Some (JStr
                                 "Cannot convert object to primitive value") |} |},
           st)).
Proof.
  intros Hnull Hundef Hmethod. unfold handleRequest_untyped.
  assert (Hdefault : forall method : JsValue,
    (forall text,
        ToString method = Normal text ->
        try_catch
          (name ← se_pure (ToString method);
           mret (failure (own_member request "id")
                   {| code := -32601;
                      message := "Method not found: " +:+ name;
                      data := None |}))
          (fun error =>
             text ← se_pure (thrown_text error);
             mret (failure (own_member request "id")
                     {| code := -32603;
                        message := "Internal error";
                        data := Some (JStr text) |})) st
        = (Normal (failure (own_member request "id")
                     {| code := -32601;
                        message := "Method not found: " +:+ text;
                        data := None |}), st))
    /\ (forall e,
          ToString method = Throw e ->
          try_catch
            (name ← se_pure (ToString method);
             mret (failure (own_member request "id")
                     {| code := -32601;
                        message := "Method not found: " +:+ name;
                        data := None |}))
            (fun error =>
               text ← se_pure (thrown_text error);
               mret (failure (own_member request "id")
                       {| code := -32603;
                          message := "Internal error";
                          data := Some (JStr text) |})) st
          = (Normal (internal_error (own_member request "id")
                       "Cannot convert object to primitive value"), st))).
  { intros method. rewrite default_of_any_method.
    split; [intros text ->|intros e ->]; done. }
  destruct request as [| |b|n|s|items|props]; try done;
    try apply Hdefault.
  destruct (own_member (JObj props) "method") as [| |b|n|method|items|props'];
    try done; apply Hdefault.
Qed.
End HandlerFacts.

Ltac unfold_stdio := unfold stdio_on_line, console_log, on_app.
Ltac unfold_http :=
  unfold http_on_request, setHeader, writeHead, end_with, fresh_response.

Section TransportFacts.
Context {S : Type} `{NumberToString}.
Variable JSON_parse : string -> Completion JsValue.
Variable serialize : JsonRpcResponse -> string.
Variable handler : JsValue -> SE S JsonRpcResponse.

(** [JSON.parse] throws a SyntaxError, and the handler the transports are
    created with throws only what their [catch] blocks can print. *)
Hypothesis JSON_parse_throws :
  forall text e, JSON_parse text = Throw e -> printable e.
Hypothesis handler_throws :
  forall request s e s', handler request s = (Throw e, s') -> printable e.

Local Abbreviation stdio_on_line := (stdio_on_line JSON_parse serialize handler).
Local Abbreviation http_on_request :=
  (http_on_request JSON_parse serialize handler).

(** X12. The stdio transport never fails on a line: a line of white space
    only changes nothing, and every other line prints exactly one line,
    whatever the parser and the handler do, as long as their exceptions can
    be printed. *)
Theorem stdio_one_answer_per_line (line : string) (io : Stdio S) :
  (blank line = true -> stdio_on_line line io = (Normal (), io))
  /\ (blank line = false ->
      exists text s',
        stdio_on_line line io =
          (Normal (), {| app := s'; stdout := stdout io ++ [text] |})).
Proof.
  unfold_stdio. se_unfold. split; intros ->; [done|].
  destruct (JSON_parse line) as [request|e] eqn:Hparse.
  - destruct (handler request (app io)) as [[response|e] s'] eqn:Hrun;
      [by eauto|].
    destruct (handler_throws _ _ _ _ Hrun) as [text ->]. by eauto.
  - destruct (JSON_parse_throws _ _ Hparse) as [text ->]. by eauto.
Qed.

(** X13. What the stdio transport prints for a line that is not blank: the
    handler's response, or the [Parse error] response with id 0 and the
    text of the exception, when the line does not parse and also when the
    handler throws on a line that did parse.  A line that does not parse
    never reaches the handler. *)
Theorem stdio_failures_are_parse_errors (line : string) (io : Stdio S) :
  blank line = false ->
  (forall e text,
      JSON_parse line = Throw e ->
      thrown_text e = Normal text ->
      stdio_on_line line io =
        (Normal (), {| app := app io;
                       stdout := stdout io
                                 ++ [serialize (parse_error_response text)] |}))
  /\ (forall request e text s',
        JSON_parse line = Normal request ->
        handler request (app io) = (Throw e, s') ->
        thrown_text e = Normal text ->
        stdio_on_line line io =
          (Normal (), {| app := s';
                         stdout := stdout io
                                   ++ [serialize (parse_error_response text)] |}))
  /\ (forall request response s',
        JSON_parse line = Normal request ->
        handler request (app io) = (Normal response, s') ->
        stdio_on_line line io =
          (Normal (), {| app := s';
                         stdout := stdout io ++ [serialize response] |})).
Proof.
  intros Hblank. unfold_stdio. se_unfold. rewrite Hblank.
  repeat split.
  - by intros e text -> ->.
  - by intros request e text s' -> -> ->.
  - by intros request response s' -> ->.
Qed.

(** X14. Every HTTP exchange is answered, with the three CORS headers and one of
    the statuses 204, 405 and 200, whatever the method, the body and the
    handler, as long as the exceptions of the parser and the handler can be
    printed. *)
Theorem http_always_answers_with_cors (req : IncomingMessage) (s : S) :
  exists res s',
    http_on_request req s = (Normal res, s')
    /\ own_property "Access-Control-Allow-Origin" (headers res) = Some "*"
    /\ own_property "Access-Control-Allow-Methods" (headers res)
       = Some "POST, OPTIONS"
    /\ own_property "Access-Control-Allow-Headers" (headers res)
       = Some "Content-Type"
    /\ is_Some (ended res)
    /\ (statusCode res = Some 204 \/ statusCode res = Some 405
        \/ statusCode res = Some 200)%Z.
Proof.
  unfold_http. se_unfold.
  case_bool_decide; [|case_bool_decide; simpl].
  - eexists _, _. split; [reflexivity|]. simpl. repeat split; eauto.
  - destruct (JSON_parse _) as [request|e] eqn:Hparse;
      [destruct (handler request s) as [[response|e] s'] eqn:Hrun|].
    + eexists _, _. split; [reflexivity|]. simpl. repeat split; eauto.
    + destruct (handler_throws _ _ _ _ Hrun) as [text ->].
      eexists _, _. split; [reflexivity|]. simpl. repeat split; eauto.
    + destruct (JSON_parse_throws _ _ Hparse) as [text ->].
      eexists _, _. split; [reflexivity|]. simpl. repeat split; eauto.
  - eexists _, _. split; [reflexivity|]. simpl. repeat split; eauto.
Qed.

(** X15. The status tells the method, not the outcome: [OPTIONS] gets 204 and an
    empty body, any other method than [POST] gets 405, both without running
    the handler; a [POST] gets 200 and a JSON body even when the body does
    not parse or the handler throws, the error then being the [Parse error]
    response with the text of the exception. *)
Theorem http_status_by_method (req : IncomingMessage) (s : S) :
  (http_method req = "OPTIONS" ->
   exists res,
     http_on_request req s = (Normal res, s)
     /\ statusCode res = Some 204%Z /\ ended res = Some ""
     /\ own_property "Content-Type" (headers res) = None)
  /\ (http_method req <> "OPTIONS" -> http_method req <> "POST" ->
      exists res,
        http_on_request req s = (Normal res, s)
        /\ statusCode res = Some 405%Z
        /\ ended res = Some "Method not allowed"
        /\ own_property "Content-Type" (headers res) = None)
  /\ (http_method req = "POST" ->
      exists res s' response,
        http_on_request req s = (Normal res, s')
        /\ statusCode res = Some 200%Z
        /\ own_property "Content-Type" (headers res) = Some "application/json"
        /\ ended res = Some (serialize response)
        /\ match JSON_parse (foldl (fun body chunk => body +:+ chunk) ""
                               (chunks req)) with
           | Throw e =>
               exists text,
                 thrown_text e = Normal text
                 /\ response = parse_error_response text /\ s' = s
           | Normal request =>
               match handler request s with
               | (Normal r, s1) => response = r /\ s' = s1
               | (Throw e, s1) =>
                   exists text,
                     thrown_text e = Normal text
                     /\ response = parse_error_response text /\ s' = s1
               end
           end).
Proof.
  unfold_http. se_unfold. repeat split.
  - intros ->. simpl. by eexists.
  - intros Hopt Hpost. rewrite bool_decide_eq_false_2 by done.
    rewrite bool_decide_eq_false_2 by done. simpl. by eexists.
  - intros ->. simpl.
    destruct (JSON_parse _) as [request|e] eqn:Hparse;
      [destruct (handler request s) as [[response|e] s'] eqn:Hrun|].
    + by eexists _, _, _.
    + destruct (handler_throws _ _ _ _ Hrun) as [text Htext]. rewrite Htext.
      eexists _, _, _. repeat split. by exists text.
    + destruct (JSON_parse_throws _ _ Hparse) as [text Htext]. rewrite Htext.
      eexists _, _, _. repeat split. by exists text.
Qed.
End TransportFacts.

Section ServeStdio.
Context {W : Type} `{NumberToString}.
Variable zodToJsonSchema : ZodType W -> SE W JsValue.
Variable JSON_stringify : JsValue -> Completion JsValue.
Variable serverInfo : McpServerInfo.
Variable tools : ToolRegistry W.
Variable JSON_parse : string -> Completion JsValue.
Variable serialize : JsonRpcResponse -> string.

Local Abbreviation serve_handler :=
  (handleRequest_untyped zodToJsonSchema JSON_stringify serverInfo tools).

End ServeStdio.

(** * Further properties of the client *)

Lemma request_stdin_inv method params rt :
  stdin_inv rt -> stdin_inv (request method params rt).2.
Proof.
  intros [Hpos Hchild]. unfold request.
  destruct (httpUrl (client rt)) as [url|] eqn:Hurl; simpl.
  { split; simpl; [lia|]. intros child Hp.
    destruct (Hchild child Hp) as [Hids Hgrow]. split; [|done].
    intros i r Hr. destruct (Hids i r Hr) as (a & ? & ?). exists a. split; [done|lia]. }
  destruct (process (client rt)) as [child|] eqn:Hproc; simpl.
  2: { split; simpl; [lia|]. by intros child. }
  destruct (Hchild child eq_refl) as [Hids Hgrow].
  split; simpl; [lia|]. intros child' [= <-]. simpl. split.
  - intros i r [Hr|[_ Hr]]%lookup_app_Some.
    + destruct (Hids i r Hr) as (a & ? & ?). exists a. split; [done|lia].
    + apply list_lookup_singleton_Some in Hr as [_ <-]. simpl.
      eexists. split; [done|lia].
  - intros i j ri rj Hij [Hi|[Hge Hi]]%lookup_app_Some [Hj|[_ Hj]]%lookup_app_Some.
    + by eapply Hgrow.
    + apply list_lookup_singleton_Some in Hj as [_ <-]. simpl.
      destruct (Hids i ri Hi) as (a & ? & ?). exists a. eexists.
      repeat split; [done|lia].
    + apply lookup_lt_Some in Hj. lia.
    + apply list_lookup_singleton_Some in Hi as [Hi _].
      apply list_lookup_singleton_Some in Hj as [Hj _]. lia.
Qed.

Section ClientFacts.
Context `{NumberToString}.
Variable JSON_parse : string -> Completion JsValue.

Lemma client_run_stdin_inv (events : list ClientEvent) :
  stdin_inv (client_run JSON_parse events).
Proof.
  unfold client_run.
  induction events as [|ev events IH] using rev_ind.
  { split; simpl; [done|]. intros child [= <-]. simpl.
    split; intros *; by rewrite ?lookup_nil. }
  rewrite foldl_app. simpl. destruct ev as [method params|line| |]; simpl.
  - by apply request_stdin_inv.
  - unfold on_line. repeat case_match; exact IH.
  - exact IH.
  - unfold close. destruct (process _); [|exact IH].
    destruct IH as [Hpos _]. split; [exact Hpos|]. by intros child.
Qed.

(** X17. The ids a stdio client writes start above zero and grow strictly, so no
    two requests of a connection share an id. *)
Theorem request_ids_increase
    (events : list ClientEvent) (child : ChildProcess)
    (i j : nat) (ri rj : JsonRpcRequest) :
  process (client (client_run JSON_parse events)) = Some child ->
  i < j ->
  stdin child !! i = Some ri ->
  stdin child !! j = Some rj ->
  exists a b, req_id ri = JNum a /\ req_id rj = JNum b /\ (0 < a < b)%Z.
Proof.
  intros Hproc Hij Hi Hj.
  destruct (client_run_stdin_inv events) as [_ Hchild].
  destruct (Hchild child Hproc) as [Hids Hgrow].
  destruct (Hgrow i j ri rj Hij Hi Hj) as (a & b & Ha & Hb & Hab).
  destruct (Hids i ri Hi) as (a' & Ha' & Hpos).
  assert (a' = a) as -> by congruence.
  exists a, b. repeat split; [done|done|lia|done].
Qed.

(** X18. Round trip of one request: when a line arrives whose [id] is the one
    [request] just drew, the promise [request] returned is fulfilled with the
    parsed line, the entry leaves [pendingRequests], and no other promise
    changes. *)
Theorem response_fulfils_its_request
    (method : string) (params : JsValue) (rt rt1 : Runtime) (p : nat)
    (line : string) (response : JsValue) :
  request method params rt = (Normal (OwnPromise p), rt1) ->
  blank line = false ->
  JSON_parse line = Normal response ->
  Get response "id" = Normal (JNum (requestId (client rt1))) ->
  promises (on_line JSON_parse line rt1) !! p = Some (Fulfilled response)
  /\ pendingRequests (client (on_line JSON_parse line rt1))
       !! requestId (client rt1) = None
  /\ (forall q, q <> p ->
        promises (on_line JSON_parse line rt1) !! q = promises rt1 !! q).
Proof.
  unfold request. intros Hreq Hblank Hparse Hid.
  destruct (httpUrl (client rt)); [done|].
  destruct (process (client rt)); [|done].
  injection Hreq as <- <-.
  unfold on_line. rewrite Hblank, Hparse, Hid. simpl in *.
  rewrite lookup_insert_eq. simpl.
  repeat split.
  - unfold resolve. simpl. apply settle_pending.
    by rewrite lookup_app_r, Nat.sub_diag.
  - apply lookup_delete_eq.
  - intros q Hq. unfold resolve. simpl. by apply settle_other.
Qed.

(** X19. A promise that is settled stays as it is under every later event: a
    request is answered or failed once. *)
Theorem settled_promise_is_final
    (rt : Runtime) (ev : ClientEvent) (p : nat) (outcome : PromiseState) :
  promises rt !! p = Some outcome ->
  outcome <> Pending ->
  promises (client_step JSON_parse rt ev) !! p = Some outcome.
Proof.
  intros Hp Hsettled.
  assert (Hkeep : forall q o, settle q o (promises rt) !! p = Some outcome).
  { intros q o. destruct (decide (q = p)) as [->|Hne].
    - rewrite settle_settled; [done|]. rewrite Hp. congruence.
    - by rewrite settle_other. }
  destruct ev as [method params|line| |]; simpl.
  - unfold request. repeat case_match; simpl; try done.
    by rewrite lookup_app_l by (by eapply lookup_lt_Some).
  - unfold on_line. repeat case_match; simpl; try done. apply Hkeep.
  - unfold on_exit. simpl. rewrite reject_all_other; [done|].
    rewrite Hp. congruence.
  - unfold close. by case_match.
Qed.

(** X20. A response that arrives twice is delivered once: handling the same line
    again changes nothing. *)
Theorem on_line_idempotent (line : string) (rt : Runtime) :
  on_line JSON_parse line (on_line JSON_parse line rt)
  = on_line JSON_parse line rt.
Proof.
  unfold on_line.
  destruct (blank line); [done|].
  destruct (JSON_parse line) as [response|e]; [|done].
  destruct (Get response "id") as [id|e]; [|done].
  destruct (pending_get (pendingRequests (client rt)) id) as [pending|] eqn:Hget;
    simpl; [|by rewrite Hget].
  destruct id as [| |b|n|s|items|props]; simplify_eq/=.
  by rewrite lookup_delete_eq.
Qed.

Lemma client_run_stdio (events : list ClientEvent) :
  httpUrl (client (client_run JSON_parse events)) = None.
Proof.
  unfold client_run.
  induction events as [|ev events IH] using rev_ind; [done|].
  rewrite foldl_app. simpl. destruct ev as [method params|line| |]; simpl.
  - unfold request. rewrite IH. by case_match.
  - unfold on_line. by repeat case_match.
  - done.
  - unfold close. by case_match.
Qed.

(** X21. After [close()] a stdio client refuses every request with
    [Not connected]: the request still draws an id, but nothing is written
    and nothing is added to [pendingRequests]. *)
Theorem request_after_close
    (events : list ClientEvent) (method : string) (params : JsValue) :
  let before := client_run JSON_parse events in
  let after := request method params (close before) in
  after.1 = Throw (Error "Not connected")
  /\ pendingRequests (client after.2) = pendingRequests (client before)
  /\ promises after.2 = promises before
  /\ requestId (client after.2) = (requestId (client before) + 1)%Z.
Proof.
  intros before after. subst after.
  pose proof (client_run_stdio events) as Hurl. fold before in Hurl.
  unfold request, close.
  destruct (process (client before)) eqn:Hproc; simpl; rewrite Hurl; simpl.
  - done.
  - by rewrite Hproc.
Qed.

(** X22. At every moment of a stdio client's life the entries of
    [pendingRequests] are exactly the promises still pending: a promise is
    pending if and only if some id maps to it. *)
Theorem pending_iff_registered (events : list ClientEvent) (p : nat) :
  promises (client_run JSON_parse events) !! p = Some Pending
  <-> exists id,
        pendingRequests (client (client_run JSON_parse events)) !! id
          = Some {| promise := p |}.
Proof.
  destruct (client_run_inv JSON_parse events) as (H1 & H2 & _).
  split; [by apply H2|]. intros [id Hid]. by apply H1 in Hid.
Qed.

(** X23. [call] on a response with an error never returns: it throws an [Error]
    whose message is the error's [message] member when that is a string. *)
Theorem call_throws_on_error_response (response error : JsValue) :
  Get response "error" = Normal error ->
  truthy error = true ->
  exists text,
    call_resume JSON_parse response = Throw (Error text)
    /\ (forall m, Get error "message" = Normal (JStr m) -> text = m).
Proof.
  intros Herror Htruthy. unfold call_resume. rewrite Herror. simpl.
  rewrite Htruthy.
  destruct (Get error "message") as [message|e] eqn:Hget; simpl.
  2:{ by destruct error. }
  destruct (match message with
            | JUndefined => Normal ""
            | _ => ToString message
            end) as [text|e] eqn:Htext; simpl.
  - exists text. split; [done|]. intros m [= ->]. by injection Htext.
  - assert (e = cannot_convert) as ->.
    { destruct message; try done; by eapply ToString_throws. }
    eexists. split; [reflexivity|]. by intros m [= ->].
Qed.

(** X24. [call] on a response without error whose result has a [content] array
    never throws, whatever the items are and whatever [JSON.parse] does with
    the text. *)
Theorem call_returns_on_content_array
    (response error result : JsValue) (items : list JsValue) :
  Get response "error" = Normal error ->
  truthy error = false ->
  Get response "result" = Normal result ->
  Get result "content" = Normal (JArr items) ->
  exists value, call_resume JSON_parse response = Normal value.
Proof.
  intros Herror Hfalsy Hresult Hcontent. unfold call_resume.
  rewrite Herror. simpl. rewrite Hfalsy, Hresult. simpl. rewrite Hcontent.
  simpl.
  destruct (default JUndefined (items !! 0)) as [| |b|n|s|items'|props];
    unfold mbind, completion_mbind; simpl;
    try (destruct (JSON_parse ""); by eexists).
  destruct (ToString _) as [source|e]; simpl;
    [destruct (JSON_parse source)|]; by eexists.
Qed.
End ClientFacts.

(** * The further properties at concrete inputs *)

Lemma zodToJsonSchema_spec_returns {W} (schema : ZodType W) (w : W) :
  exists jsonSchema w',
    zodToJsonSchema_spec schema w = (Normal jsonSchema, w') /\ jsonSchema <> JNull.
Proof.
  destruct (json_schema_of_is_object (def schema)) as [props Hprops].
  exists (JObj props), w. split; [|done].
  unfold zodToJsonSchema_spec. se_unfold. by rewrite Hprops.
Qed.

Lemma parse_known_throws (text : string) (e : Thrown) :
  parse_known text = Throw e -> printable e.
Proof.
  unfold parse_known, parse_literal. repeat case_bool_decide; try done.
  intros [= <-]. by eexists.
Qed.

Lemma failing_handler_throws request (s : unit) e s' :
  failing_handler request s = (Throw e, s') -> printable e.
Proof. intros [= <- <-]. by eexists. Qed.

Lemma picky_library_throws {W} (schema : ZodType W) (w : W) e w' :
  picky_library schema w = (Throw e, w') -> printable e.
Proof.
  unfold picky_library, zodToJsonSchema_spec. se_unfold.
  destruct (def schema); try done. intros [= <- <-]. by eexists.
Qed.

Lemma testHandler_throws request st e st' :
  testHandler request st = (Throw e, st') -> printable e.
Proof. apply handler_throws_printable. Qed.


Lemma unknown_method_response_witness :
  testServer testTools
    {| req_jsonrpc := "2.0"; req_id := JNum 1; req_method := "foo/bar";
       req_params := JUndefined |}
  = (Normal {| res_jsonrpc := "2.0"; res_id := JNum 1; res_result := None;
               res_error := Some {| code := -32601;
                                    message := "Method not found: foo/bar";
                                    data := None |} |},
     idle).
Proof.
  apply (unknown_method_response zodToJsonSchema_spec JSON_stringify_pretty
           testServerInfo testTools
           {| req_jsonrpc := "2.0"; req_id := JNum 1; req_method := "foo/bar";
              req_params := JUndefined |} idle).
  apply (bool_decide_unpack _). vm_compute. exact I.
Defined.

Lemma params_read_only_by_tools_call_witness :
  testServer testTools
    {| req_jsonrpc := "2.0"; req_id := JNum 1; req_method := "tools/list";
       req_params := JNull |}
  = testServer testTools
      {| req_jsonrpc := "2.0"; req_id := JNum 1; req_method := "tools/list";
         req_params := JArr [JNum 3] |}.
Proof.
  apply (params_read_only_by_tools_call zodToJsonSchema_spec JSON_stringify_pretty
           testServerInfo testTools
           {| req_jsonrpc := "2.0"; req_id := JNum 1; req_method := "tools/list";
              req_params := JNull |} (JArr [JNum 3]) idle).
  discriminate.
Defined.

Lemma handleRequest_error_codes_witness :
  (-32602 = -32601 /\ "tools/call" ∉ known_methods)%Z
  \/ (-32602 = -32602 /\ "tools/call" = "tools/call")%Z
  \/ (-32602 = -32603
      /\ ("tools/call" = "tools/call" \/ "tools/call" = "tools/list"))%Z.
Proof.
  apply (handleRequest_error_codes zodToJsonSchema_spec JSON_stringify_pretty
           testServerInfo testTools
           (tools_call (JNum 1) "nonexistent" (JObj [])) idle idle
           {| res_jsonrpc := "2.0"; res_id := JNum 1; res_result := None;
              res_error := Some {| code := -32602;
                                   message := "Unknown tool: nonexistent";
                                   data := None |} |}
           {| code := -32602; message := "Unknown tool: nonexistent";
              data := None |}); reflexivity.
Defined.

Lemma execute_only_after_validation_witness :
  [("greet", JObj [("name", JStr "World")])] = ([] : list (string * JsValue))
  \/ exists toolName args key toolDef input w,
       "tools/call" = "tools/call"
       /\ destructure_params
            (JObj [("name", JStr "greet");
                   ("arguments", JObj [("name", JStr "World")])])
          = Normal (toolName, args)
       /\ ToString toolName = Normal key
       /\ own_property key testTools = Some toolDef
       /\ safeParse (parameters toolDef) (nullish_coalesce args (JObj [])) ()
          = (Normal (SafeParseSuccess input), w)
       /\ [("greet", JObj [("name", JStr "World")])]
          = ([] ++ [(key, input)])%list.
Proof.
  apply (execute_only_after_validation zodToJsonSchema_spec JSON_stringify_pretty
           testServerInfo testTools
           (tools_call (JNum 1) "greet" (JObj [("name", JStr "World")]))
           idle
           {| store := (); invoked := [("greet", JObj [("name", JStr "World")])] |}
           (Normal {| res_jsonrpc := "2.0"; res_id := JNum 1;
                      res_result := Some (JObj [("content",
                        JArr [JObj [("type", JStr "text");
                                    ("text", JStr "Hello, World!")]])]);
                      res_error := None |})).
  reflexivity.
Defined.

Lemma tool_result_rendering_witness :
  testServer testTools (tools_call (JNum 1) "greet" (JObj [("name", JStr "World")]))
  = (Normal {| res_jsonrpc := "2.0"; res_id := JNum 1;
               res_result := Some (JObj [("content",
                 JArr [JObj [("type", JStr "text");
                             ("text", JStr "Hello, World!")]])]);
               res_error := None |},
     {| store := (); invoked := [("greet", JObj [("name", JStr "World")])] |}).
Proof.
  apply (tool_result_rendering zodToJsonSchema_spec JSON_stringify_pretty
           testServerInfo testTools
           (tools_call (JNum 1) "greet" (JObj [("name", JStr "World")])) idle
           (JStr "greet") (JObj [("name", JStr "World")]) "greet" greet
           (JObj [("name", JStr "World")]) (JStr "Hello, World!") () ());
    reflexivity.
Defined.

Lemma unknown_tool_response_witness :
  testServer testTools (tools_call (JNum 1) "nonexistent" (JObj []))
  = (Normal {| res_jsonrpc := "2.0"; res_id := JNum 1; res_result := None;
               res_error := Some {| code := -32602;
                                    message := "Unknown tool: nonexistent";
                                    data := None |} |},
     idle).
Proof.
  apply (unknown_tool_response zodToJsonSchema_spec JSON_stringify_pretty
           testServerInfo testTools
           (tools_call (JNum 1) "nonexistent" (JObj [])) idle
           (JStr "nonexistent") (JObj []) "nonexistent"); try reflexivity.
  apply (bool_decide_unpack _). vm_compute. exact I.
Defined.

Lemma zodToMcpSchema_always_object_witness :
  exists properties required,
    zodToMcpSchema zodToJsonSchema_spec (weather_schema (W := unit)) () =
      (Normal (JObj [("type", JStr "object");
                     ("properties", properties);
                     ("required", required)]), ())
    /\ properties <> JUndefined /\ properties <> JNull.
Proof.
  apply (zodToMcpSchema_always_object zodToJsonSchema_spec weather_schema () ()
           (json_schema_of (ZObject weather_shape))).
  - reflexivity.
  - discriminate.
Defined.

Lemma tools_list_enumerates_registry_witness :
  exists toolList st',
    testServer testTools
      {| req_jsonrpc := "2.0"; req_id := JNum 2; req_method := "tools/list";
         req_params := JObj [] |}
    = (Normal {| res_jsonrpc := "2.0"; res_id := JNum 2;
                 res_result := Some (JObj [("tools", JArr toolList)]);
                 res_error := None |}, st')
    /\ invoked st' = []
    /\ length toolList = 2
    /\ Forall2 (fun entry definition =>
                  exists inputSchema,
                    definition = JObj [("name", JStr entry.1);
                                       ("description", JStr (description entry.2));
                                       ("inputSchema", inputSchema)]
                    /\ Get inputSchema "type" = Normal (JStr "object"))
               testTools toolList.
Proof.
  apply (tools_list_enumerates_registry zodToJsonSchema_spec JSON_stringify_pretty
           testServerInfo testTools
           {| req_jsonrpc := "2.0"; req_id := JNum 2; req_method := "tools/list";
              req_params := JObj [] |} idle).
  - intros schema w. apply zodToJsonSchema_spec_returns.
  - reflexivity.
Defined.

Lemma tools_list_fails_as_a_whole_witness :
  exists text st',
    handleRequest picky_library JSON_stringify_pretty testServerInfo
      [("greet", greet); ("flag", boolean_tool)]
      {| req_jsonrpc := "2.0"; req_id := JNum 2; req_method := "tools/list";
         req_params := JObj [] |} idle
    = (Normal {| res_jsonrpc := "2.0"; res_id := JNum 2; res_result := None;
                 res_error := Some {| code := -32603;
                                      message := "Internal error";
                                      data := Some (JStr text) |} |},
       st')
    /\ invoked st' = invoked idle.
Proof.
  apply (tools_list_fails_as_a_whole picky_library JSON_stringify_pretty
           testServerInfo [("greet", greet); ("flag", boolean_tool)]
           {| req_jsonrpc := "2.0"; req_id := JNum 2; req_method := "tools/list";
              req_params := JObj [] |} idle "flag" boolean_tool).
  - intros schema w e w'. apply picky_library_throws.
  - reflexivity.
  - apply elem_of_cons. right. apply elem_of_cons. by left.
  - intros w. exists (Error "unsupported schema"), w. reflexivity.
Defined.


Lemma handler_method_must_be_string_witness :
  testHandler array_method_request idle
  = (Normal {| res_jsonrpc := "2.0"; res_id := JNum 1; res_result := None;
               res_error := Some {| code := -32601;
                                    message := "Method not found: ping";
                                    data := None |} |},
     idle)
  /\ testHandler object_method_request idle
     = (Normal {| res_jsonrpc := "2.0"; res_id := JNum 1; res_result := None;
                  res_error := Some {| code := -32603;
                                       message := "Internal error";
                                       data := Some (JStr
                                         "Cannot convert object to primitive value") |} |},
        idle).
Proof.
  split.
  - apply (proj1 (handler_method_must_be_string zodToJsonSchema_spec
                    JSON_stringify_pretty testServerInfo testTools
                    array_method_request idle ltac:(discriminate)
                    ltac:(discriminate) ltac:(discriminate)) "ping").
    reflexivity.
  - apply (proj2 (handler_method_must_be_string zodToJsonSchema_spec
                    JSON_stringify_pretty testServerInfo testTools
                    object_method_request idle ltac:(discriminate)
                    ltac:(discriminate) ltac:(discriminate)) cannot_convert).
    reflexivity.
Defined.

Lemma stdio_one_answer_per_line_witness :
  stdio_on_line parse_known serialize_indented testHandler no_break_space_line
    (quiet idle)
  = (Normal (), quiet idle)
  /\ exists text s',
       stdio_on_line parse_known serialize_indented testHandler ping_text
         (quiet idle)
       = (Normal (), {| app := s'; stdout := stdout (quiet idle) ++ [text] |}).
Proof.
  split.
  - apply (proj1 (stdio_one_answer_per_line parse_known serialize_indented
                    testHandler parse_known_throws
                    testHandler_throws
                    no_break_space_line (quiet idle))). reflexivity.
  - apply (proj2 (stdio_one_answer_per_line parse_known serialize_indented
                    testHandler parse_known_throws
                    testHandler_throws
                    ping_text (quiet idle))). reflexivity.
Defined.

Lemma stdio_failures_are_parse_errors_witness :
  stdio_on_line parse_known serialize_indented testHandler "oops" (quiet idle)
  = (Normal (),
     {| app := idle;
        stdout := [serialize_indented
                     (parse_error_response "Unexpected end of JSON input")] |})
  /\ stdio_on_line parse_known serialize_indented failing_handler ping_text
       (quiet ())
     = (Normal (),
        {| app := ();
           stdout := [serialize_indented
                        (parse_error_response "handler failed")] |})
  /\ stdio_on_line parse_known serialize_indented testHandler ping_text
       (quiet idle)
     = (Normal (),
        {| app := idle;
           stdout := [serialize_indented
                        {| res_jsonrpc := "2.0"; res_id := JNum 1;
                           res_result := Some (JObj []);
                           res_error := None |}] |}).
Proof.
  split; [|split].
  - apply (proj1 (stdio_failures_are_parse_errors parse_known serialize_indented
                    testHandler "oops" (quiet idle) eq_refl)
             (Error "Unexpected end of JSON input")); reflexivity.
  - apply (proj1 (proj2 (stdio_failures_are_parse_errors parse_known
                           serialize_indented failing_handler ping_text
                           (quiet ()) eq_refl))
             ping_value (Error "handler failed")); reflexivity.
  - apply (proj2 (proj2 (stdio_failures_are_parse_errors parse_known
                           serialize_indented testHandler ping_text
                           (quiet idle) eq_refl)) ping_value); reflexivity.
Defined.

Lemma http_always_answers_with_cors_witness :
  exists res s',
    http_on_request parse_known serialize_indented testHandler
      {| http_method := "POST"; chunks := ["oo"; "ps"] |} idle
    = (Normal res, s')
    /\ own_property "Access-Control-Allow-Origin" (headers res) = Some "*"
    /\ own_property "Access-Control-Allow-Methods" (headers res)
       = Some "POST, OPTIONS"
    /\ own_property "Access-Control-Allow-Headers" (headers res)
       = Some "Content-Type"
    /\ is_Some (ended res)
    /\ (statusCode res = Some 204 \/ statusCode res = Some 405
        \/ statusCode res = Some 200)%Z.
Proof.
  apply (http_always_answers_with_cors parse_known serialize_indented testHandler
           parse_known_throws testHandler_throws
           {| http_method := "POST"; chunks := ["oo"; "ps"] |} idle).
Defined.

Lemma http_status_by_method_witness :
  (exists res,
     http_on_request parse_known serialize_indented testHandler
       {| http_method := "OPTIONS"; chunks := [] |} idle = (Normal res, idle)
     /\ statusCode res = Some 204%Z /\ ended res = Some ""
     /\ own_property "Content-Type" (headers res) = None)
  /\ (exists res,
        http_on_request parse_known serialize_indented testHandler
          {| http_method := "GET"; chunks := [] |} idle = (Normal res, idle)
        /\ statusCode res = Some 405%Z
        /\ ended res = Some "Method not allowed"
        /\ own_property "Content-Type" (headers res) = None)
  /\ (exists res s' response,
        http_on_request parse_known serialize_indented testHandler
          {| http_method := "POST"; chunks := ["oo"; "ps"] |} idle
        = (Normal res, s')
        /\ statusCode res = Some 200%Z
        /\ own_property "Content-Type" (headers res) = Some "application/json"
        /\ ended res = Some (serialize_indented response)
        /\ exists text,
             thrown_text (Error "Unexpected end of JSON input") = Normal text
             /\ response = parse_error_response text
             /\ s' = idle).
Proof.
  split; [|split].
  - apply (proj1 (http_status_by_method parse_known serialize_indented testHandler
                    parse_known_throws testHandler_throws
                    {| http_method := "OPTIONS"; chunks := [] |} idle)).
    reflexivity.
  - apply (proj1 (proj2 (http_status_by_method parse_known serialize_indented
                           testHandler parse_known_throws
                           testHandler_throws
                           {| http_method := "GET"; chunks := [] |}
                           idle))); discriminate.
  - apply (proj2 (proj2 (http_status_by_method parse_known serialize_indented
                           testHandler parse_known_throws
                           testHandler_throws
                           {| http_method := "POST"; chunks := ["oo"; "ps"] |}
                           idle))). reflexivity.
Defined.

(** Over stdio, a call of the tool whose exception cannot be printed is
    answered with the [Parse error] response and id 0: the TypeError that
    left the handler is caught by the transport. *)
Example opaque_tool_over_stdio :
  stdio_on_line
    (fun _ =>
       Normal (JObj [("jsonrpc", JStr "2.0"); ("id", JNum 1);
                     ("method", JStr "tools/call");
                     ("params", JObj [("name", JStr "opaque_tool");
                                      ("arguments", JObj [])])]))
    serialize_indented
    (handleRequest_untyped zodToJsonSchema_spec JSON_stringify_pretty
       testServerInfo [("opaque_tool", opaque_tool)])
    "call" (quiet idle)
  = (Normal (),
     {| app := {| store := (); invoked := [("opaque_tool", JObj [])] |};
        stdout := [serialize_indented
                     (parse_error_response
                        "Cannot convert object to primitive value")] |}).
Proof. reflexivity. Qed.


Lemma request_ids_increase_witness :
  exists a b, JNum 1 = JNum a /\ JNum 2 = JNum b /\ (0 < a < b)%Z.
Proof.
  apply (request_ids_increase parse_literal two_requests two_requests_written
           0 1
           {| req_jsonrpc := "2.0"; req_id := JNum 1;
              req_method := "initialize"; req_params := JObj [] |}
           {| req_jsonrpc := "2.0"; req_id := JNum 2;
              req_method := "tools/call";
              req_params := JObj [("name", JStr "greet");
                                  ("arguments", JObj [])] |}).
  - vm_compute. reflexivity.
  - apply le_n.
  - reflexivity.
  - reflexivity.
Defined.

Lemma response_fulfils_its_request_witness :
  promises (on_line parse_known reply_text (request "ping" (JObj []) spawned).2)
    !! 0 = Some (Fulfilled reply_value)
  /\ pendingRequests
       (client (on_line parse_known reply_text
                  (request "ping" (JObj []) spawned).2))
       !! requestId (client (request "ping" (JObj []) spawned).2) = None
  /\ (forall q, q <> 0 ->
        promises (on_line parse_known reply_text
                    (request "ping" (JObj []) spawned).2) !! q
        = promises (request "ping" (JObj []) spawned).2 !! q).
Proof.
  apply (response_fulfils_its_request parse_known "ping" (JObj []) spawned
           (request "ping" (JObj []) spawned).2 0 reply_text reply_value);
    reflexivity.
Defined.

Lemma settled_promise_is_final_witness :
  promises (client_step parse_known
              (on_exit (client_run parse_known two_requests)) (Line reply_text))
    !! 0 = Some (Rejected (Error "Process exited")).
Proof.
  apply (settled_promise_is_final parse_known
           (on_exit (client_run parse_known two_requests)) (Line reply_text) 0
           (Rejected (Error "Process exited"))).
  - vm_compute. reflexivity.
  - discriminate.
Defined.

Lemma pending_iff_registered_witness :
  promises (client_run parse_known two_requests) !! 1 = Some Pending.
Proof.
  apply (proj2 (pending_iff_registered parse_known two_requests 1)).
  exists 2%Z. vm_compute. reflexivity.
Defined.

Lemma call_throws_on_error_response_witness :
  exists text,
    call_resume parse_literal error_response = Throw (Error text)
    /\ (forall m,
          Get (JObj [("code", JNum (-32603)); ("message", JStr "Tool error")])
            "message" = Normal (JStr m) ->
          text = m).
Proof.
  apply (call_throws_on_error_response parse_literal error_response
           (JObj [("code", JNum (-32603)); ("message", JStr "Tool error")]));
    reflexivity.
Defined.

Lemma call_returns_on_content_array_witness :
  exists value, call_resume parse_literal hello_response = Normal value.
Proof.
  apply (call_returns_on_content_array parse_literal hello_response JUndefined
           (JObj [("content",
              JArr [JObj [("type", JStr "text");
                          ("text", JStr "Hello, World!")]])])
           [JObj [("type", JStr "text"); ("text", JStr "Hello, World!")]]);
    reflexivity.
Defined.
